(** * Python bindings of the Ranger robot SDK (python/ugv_sdk/ranger_robot.cpp)

    A shallow embedding of the pybind11 module [ranger_robot]: the three
    aggregate records with their [time_stamp] property, the actuator array
    properties of [RangerActuatorState], and the argument tables of the
    [RangerRobot] methods.  The State Aggregator and the Command
    Dispatcher, which live in the C++ core behind the bindings, are
    modelled from the design document in the last two modules. *)

From Stdlib Require Import ZArith Lia PrimFloat.
From stdpp Require Import base list strings.

Set Warnings "-inexact-float".

(** ** std::chrono as used by the bindings *)

Module Chrono.
Local Open Scope Z_scope.

(** [long long] and the 64-bit signed [rep] of the chrono durations. *)
Definition INT64_MIN : Z := - 2 ^ 63.
Definition INT64_MAX : Z := 2 ^ 63 - 1.

Definition in_int64 (z : Z) : bool := (INT64_MIN <=? z) && (z <=? INT64_MAX).

(** Two's-complement wrap-around of a 64-bit signed computation. *)
Definition wrap_int64 (z : Z) : Z := (z + 2 ^ 63) mod 2 ^ 64 - 2 ^ 63.

(** [std::chrono::steady_clock::duration] counts nanoseconds in a signed
    64-bit [rep] (libstdc++ and libc++): 10^6 ticks per millisecond. *)
Definition ticks_per_ms : Z := 1000000.

(** [std::chrono::steady_clock::time_point]: the tick count of
    [time_since_epoch()]. *)
Record time_point : Type := mk_time_point { time_since_epoch : Z }.

(** [steady_clock::time_point(std::chrono::milliseconds(ms))]: the implicit
    conversion of the millisecond duration to the clock's duration multiplies
    the count by the period ratio in the 64-bit [rep]. *)
Definition time_point_of_milliseconds (ms : Z) : time_point :=
  mk_time_point (wrap_int64 (ms * ticks_per_ms)).

(** [duration_cast<milliseconds>(d).count()]: integer division of the tick
    count, which in C++ truncates toward zero. *)
Definition duration_cast_milliseconds (d : Z) : Z := Z.quot d ticks_per_ms.

(** The largest magnitude of a millisecond count whose tick count fits. *)
Definition MS_LIMIT : Z := 9223372036854.

(** The tick count [d] lies in millisecond [q], counted from the epoch
    toward either side: millisecond 0 spans the ticks on both sides of the
    epoch that are less than one millisecond away from it. *)
Definition within_millisecond (q d : Z) : Prop :=
  (0 <= q /\ q * ticks_per_ms <= d < (q + 1) * ticks_per_ms) \/
  (q <= 0 /\ (q - 1) * ticks_per_ms < d <= q * ticks_per_ms).

(** The setter's conversion followed by the getter's. *)
Definition round_trip (ms : Z) : Z :=
  duration_cast_milliseconds (time_since_epoch (time_point_of_milliseconds ms)).

End Chrono.

(** ** Message types declared in agilex_message.h

    The header is outside this file; the bindings only move whole messages
    around, so the message types are parameters.  [*_zero] is the
    value-initialised message a default-constructed aggregate holds. *)

Class AgilexMessages : Type := {
  SystemStateMessage : Type;
  MotionStateMessage : Type;
  LightStateMessage : Type;
  MotionModeStateMessage : Type;
  RcStateMessage : Type;
  OdometryMessage : Type;
  MotorAngleMessage : Type;
  MotorSpeedMessage : Type;
  ActuatorHSStateMessage : Type;
  ActuatorLSStateMessage : Type;
  BmsBasicMessage : Type;
  system_state_zero : SystemStateMessage;
  motion_state_zero : MotionStateMessage;
  light_state_zero : LightStateMessage;
  motion_mode_state_zero : MotionModeStateMessage;
  rc_state_zero : RcStateMessage;
  odometry_zero : OdometryMessage;
  motor_angles_zero : MotorAngleMessage;
  motor_speeds_zero : MotorSpeedMessage;
  actuator_hs_zero : ActuatorHSStateMessage;
  actuator_ls_zero : ActuatorLSStateMessage;
  bms_basic_zero : BmsBasicMessage
}.

(** ** Exceptions and outcomes of a bound call *)

Inductive PyException : Type :=
| RuntimeError (what : string)   (* std::runtime_error *)
| CastError                      (* pybind11::cast_error *)
| IndexError                     (* list index out of range *)
| TypeError.                     (* the call fits no signature *)

(** A bound setter works on the C++ object behind the Python instance: what
    it wrote before an exception stays written, so both outcomes carry the
    object. *)
Inductive Outcome (St : Type) : Type :=
| Returned (s : St)
| Raised (e : PyException) (s : St).
Arguments Returned {St} s.
Arguments Raised {St} e s.

Definition final_state {St : Type} (o : Outcome St) : St :=
  match o with Returned s => s | Raised _ s => s end.

Definition raised {St : Type} (o : Outcome St) : bool :=
  match o with Returned _ => false | Raised _ _ => true end.

(** A statement of a lambda body: runs on the object, may throw. *)
Definition Stmt (St : Type) : Type := St -> Outcome St.

Definition skip {St : Type} : Stmt St := fun s => Returned s.
Definition throw {St : Type} (e : PyException) : Stmt St := fun s => Raised e s.
Definition seq_stmt {St : Type} (a b : Stmt St) : Stmt St :=
  fun s => match a s with Returned s' => b s' | Raised e s' => Raised e s' end.

Notation "a ;;; b" := (seq_stmt a b) (at level 90, right associativity).

(** [for (size_t i = from; i < from + count; ++i) body(i);] *)
Fixpoint for_loop {St : Type} (count : nat) (from : nat) (body : nat -> Stmt St)
    : Stmt St :=
  match count with
  | O => skip
  | S count' => body from ;;; for_loop count' (S from) body
  end.

(** A [long long] parameter: pybind11 converts the Python int and refuses
    the call with a TypeError when it does not fit. *)
Definition with_long_long {St : Type} (f : Z -> St -> St) (v : Z) : Stmt St :=
  fun s => if Chrono.in_int64 v then Returned (f v s) else Raised TypeError s.

(** ** RangerCoreState *)

Module RangerCoreState.
Section Def.
Context {M : AgilexMessages}.

Record t : Type := mk {
  time_stamp : Chrono.time_point;
  system_state : SystemStateMessage;
  motion_state : MotionStateMessage;
  light_state : LightStateMessage;
  motion_mode_state : MotionModeStateMessage;
  rc_state : RcStateMessage;
  odometry : OdometryMessage
}.

(** [py::init<>()] *)
Definition init : t :=
  mk (Chrono.mk_time_point 0) system_state_zero motion_state_zero
     light_state_zero motion_mode_state_zero rc_state_zero odometry_zero.

(** The [time_stamp] property getter. *)
Definition get_time_stamp (s : t) : Z :=
  Chrono.duration_cast_milliseconds (Chrono.time_since_epoch (time_stamp s)).

(** The [time_stamp] property setter, [(RangerCoreState &s, long long ms)]. *)
Definition set_time_stamp (ms : Z) (s : t) : t :=
  mk (Chrono.time_point_of_milliseconds ms) (system_state s) (motion_state s)
     (light_state s) (motion_mode_state s) (rc_state s) (odometry s).

(** [s.time_stamp = ms] from Python. *)
Definition py_set_time_stamp (ms : Z) : Stmt t := with_long_long set_time_stamp ms.

End Def.
End RangerCoreState.

(** ** Python objects handed to the bindings

    [PyActuatorHS m] is an [ActuatorHSStateMessage] instance that owns its
    message.  [PyActuatorHSSlot i] is the wrapper the [actuator_hs_state]
    getter yields for slot [i] of the record at hand: [py::make_iterator]
    has the return value policy [reference_internal], so the wrapper refers
    to the slot and shows whatever the slot holds when it is read. *)

Section PyObjects.
Context {M : AgilexMessages}.

Inductive PyObject : Type :=
| PyNone
| PyBool (b : bool)
| PyInt (z : Z)
| PyFloat (x : float)
| PyStr (str : string)
| PyActuatorHS (m : ActuatorHSStateMessage)
| PyActuatorHSSlot (i : nat)
| PyActuatorLS (m : ActuatorLSStateMessage)
| PyActuatorLSSlot (i : nat).

(** What Python sees when [o.cast<T>()] fails inside a bound call.  An
    object of another type does not load and [cast] throws
    [pybind11::cast_error].  [None] does load, as a null pointer, and taking
    the value out of it throws [reference_cast_error], which the dispatcher
    catches as "try the next signature": with no other signature the call
    ends in a TypeError. *)
Definition cast_failure (o : PyObject) : PyException :=
  match o with
  | PyNone => TypeError
  | _ => CastError
  end.

(** One round of a setter's loop, [array[i] = l[i].cast<T>()], for an array
    of [T] inside a record [St]: fetch the list item, convert it, and only
    then store it.  [cast] reads the record because a wrapper of kind
    [..Slot] is converted by copying what its slot holds at that moment. *)
Definition assign_slot {St T : Type} (cast : St -> PyObject -> option T)
    (store : nat -> T -> St -> St) (l : list PyObject) (i : nat) : Stmt St :=
  fun s =>
    match l !! i with
    | None => Raised IndexError s
    | Some o =>
        match cast s o with
        | None => Raised (cast_failure o) s
        | Some m => Returned (store i m s)
        end
    end.

End PyObjects.

(** ** RangerActuatorState *)

Module RangerActuatorState.
Section Def.
Context {M : AgilexMessages}.

(** Modelled from the spec: the bound of the two actuator arrays.  The
    struct is declared in the SDK's interface header, which the bindings
    only include; the design document gives the arrays as fixed-size arrays
    of 4, which is also what the setters' loops assume.  A C array is a list
    here, with [well_formed] as its length invariant. *)
Definition ACTUATOR_SLOTS : nat := 4.

Record t : Type := mk {
  time_stamp : Chrono.time_point;
  motor_angles : MotorAngleMessage;
  motor_speeds : MotorSpeedMessage;
  actuator_hs_state : list ActuatorHSStateMessage;
  actuator_ls_state : list ActuatorLSStateMessage
}.

Definition well_formed (s : t) : Prop :=
  length (actuator_hs_state s) = ACTUATOR_SLOTS /\
  length (actuator_ls_state s) = ACTUATOR_SLOTS.

(** [py::init<>()] *)
Definition init : t :=
  mk (Chrono.mk_time_point 0) motor_angles_zero motor_speeds_zero
     (replicate ACTUATOR_SLOTS actuator_hs_zero)
     (replicate ACTUATOR_SLOTS actuator_ls_zero).

Definition get_time_stamp (s : t) : Z :=
  Chrono.duration_cast_milliseconds (Chrono.time_since_epoch (time_stamp s)).

Definition set_time_stamp (ms : Z) (s : t) : t :=
  mk (Chrono.time_point_of_milliseconds ms) (motor_angles s) (motor_speeds s)
     (actuator_hs_state s) (actuator_ls_state s).

Definition py_set_time_stamp (ms : Z) : Stmt t := with_long_long set_time_stamp ms.

(** [def_readwrite] setters. *)
Definition set_motor_angles (v : MotorAngleMessage) (s : t) : t :=
  mk (time_stamp s) v (motor_speeds s) (actuator_hs_state s) (actuator_ls_state s).

Definition set_motor_speeds (v : MotorSpeedMessage) (s : t) : t :=
  mk (time_stamp s) (motor_angles s) v (actuator_hs_state s) (actuator_ls_state s).

(** The [actuator_hs_state] getter: iterate from [std::begin] to [std::end]
    of the array and collect one wrapper per element into a Python list. *)
Definition get_actuator_hs_state (s : t) : list PyObject :=
  imap (fun i _ => PyActuatorHSSlot i) (actuator_hs_state s).

(** [o.cast<ActuatorHSStateMessage>()]: a copy of the message behind [o],
    or a cast error when [o] is no [ActuatorHSStateMessage]. *)
Definition cast_hs (s : t) (o : PyObject) : option ActuatorHSStateMessage :=
  match o with
  | PyActuatorHS m => Some m
  | PyActuatorHSSlot i => actuator_hs_state s !! i
  | _ => None
  end.

(** [s.actuator_hs_state[i] = m] *)
Definition store_hs (i : nat) (m : ActuatorHSStateMessage) (s : t) : t :=
  mk (time_stamp s) (motor_angles s) (motor_speeds s)
     (<[i := m]> (actuator_hs_state s)) (actuator_ls_state s).

(** The loop body [s.actuator_hs_state[i] = l[i].cast<ActuatorHSStateMessage>()]. *)
Definition assign_hs (l : list PyObject) (i : nat) : Stmt t :=
  assign_slot cast_hs store_hs l i.

(** The [actuator_hs_state] setter. *)
Definition set_actuator_hs_state (l : list PyObject) : Stmt t :=
  if decide (length l <> 4) then throw (RuntimeError "List size must be 4")
  else for_loop 4 0 (assign_hs l).

(** The same pair for [actuator_ls_state]. *)
Definition get_actuator_ls_state (s : t) : list PyObject :=
  imap (fun i _ => PyActuatorLSSlot i) (actuator_ls_state s).

Definition cast_ls (s : t) (o : PyObject) : option ActuatorLSStateMessage :=
  match o with
  | PyActuatorLS m => Some m
  | PyActuatorLSSlot i => actuator_ls_state s !! i
  | _ => None
  end.

Definition store_ls (i : nat) (m : ActuatorLSStateMessage) (s : t) : t :=
  mk (time_stamp s) (motor_angles s) (motor_speeds s)
     (actuator_hs_state s) (<[i := m]> (actuator_ls_state s)).

Definition assign_ls (l : list PyObject) (i : nat) : Stmt t :=
  assign_slot cast_ls store_ls l i.

Definition set_actuator_ls_state (l : list PyObject) : Stmt t :=
  if decide (length l <> 4) then throw (RuntimeError "List size must be 4")
  else for_loop 4 0 (assign_ls l).

(** What Python code can do to a record through this class. Reading a
    property leaves the record as it is. *)
Inductive Op : Type :=
| ReadProperty (name : string)
| WriteTimeStamp (ms : Z)
| WriteMotorAngles (v : MotorAngleMessage)
| WriteMotorSpeeds (v : MotorSpeedMessage)
| WriteActuatorHS (l : list PyObject)
| WriteActuatorLS (l : list PyObject).

Definition perform (op : Op) : Stmt t :=
  match op with
  | ReadProperty _ => skip
  | WriteTimeStamp ms => py_set_time_stamp ms
  | WriteMotorAngles v => fun s => Returned (set_motor_angles v s)
  | WriteMotorSpeeds v => fun s => Returned (set_motor_speeds v s)
  | WriteActuatorHS l => set_actuator_hs_state l
  | WriteActuatorLS l => set_actuator_ls_state l
  end.

(** The record after a sequence of operations, each of which may have
    raised (the script catching the exception and going on). *)
Definition run (ops : list Op) (s : t) : t :=
  foldl (fun s op => final_state (perform op s)) s ops.

End Def.
End RangerActuatorState.

(** ** RangerCommonSensorState *)

Module RangerCommonSensorState.
Section Def.
Context {M : AgilexMessages}.

Record t : Type := mk {
  time_stamp : Chrono.time_point;
  bms_basic_state : BmsBasicMessage
}.

Definition init : t := mk (Chrono.mk_time_point 0) bms_basic_zero.

Definition get_time_stamp (s : t) : Z :=
  Chrono.duration_cast_milliseconds (Chrono.time_since_epoch (time_stamp s)).

Definition set_time_stamp (ms : Z) (s : t) : t :=
  mk (Chrono.time_point_of_milliseconds ms) (bms_basic_state s).

Definition py_set_time_stamp (ms : Z) : Stmt t := with_long_long set_time_stamp ms.

End Def.
End RangerCommonSensorState.

(** ** Argument tables of the RangerRobot methods

    [py::arg("name")] declares a named parameter and [py::arg("name") = v]
    one with a default.  [load_args] is pybind11's dispatcher filling the
    parameter vector of a call: positional arguments first, then for every
    remaining parameter the keyword argument of its name or else its
    default.  [None] is the TypeError of a call that fits no signature. *)

Section ArgumentTables.
Context {M : AgilexMessages}.

Record arg_record : Type := mk_arg {
  arg_name : string;
  arg_default : option PyObject
}.

Definition py_arg (name : string) : arg_record := mk_arg name None.
Definition py_arg_v (name : string) (v : PyObject) : arg_record := mk_arg name (Some v).

Fixpoint kw_lookup (name : string) (kwargs : list (string * PyObject))
    : option PyObject :=
  match kwargs with
  | [] => None
  | (k, v) :: rest => if decide (k = name) then Some v else kw_lookup name rest
  end.

Fixpoint kw_remove (name : string) (kwargs : list (string * PyObject))
    : list (string * PyObject) :=
  match kwargs with
  | [] => []
  | (k, v) :: rest =>
      if decide (k = name) then kw_remove name rest else (k, v) :: kw_remove name rest
  end.

Fixpoint load_args (spec : list arg_record) (args : list PyObject)
    (kwargs : list (string * PyObject)) : option (list PyObject) :=
  match spec with
  | [] =>
      match args, kwargs with
      | [], [] => Some []
      | _, _ => None          (* too many positional or unknown keyword *)
      end
  | a :: spec' =>
      match args with
      | v :: args' =>
          match kw_lookup (arg_name a) kwargs with
          | Some _ => None    (* given both by position and by keyword *)
          | None => cons v <$> load_args spec' args' kwargs
          end
      | [] =>
          match kw_lookup (arg_name a) kwargs with
          | Some v => cons v <$> load_args spec' [] (kw_remove (arg_name a) kwargs)
          | None =>
              match arg_default a with
              | Some d => cons d <$> load_args spec' [] kwargs
              | None => None  (* missing required argument *)
              end
          end
      end
  end.

(** A bound method: the C++ function [impl] receives the loaded vector. *)
Definition call {R : Type} (spec : list arg_record) (impl : list PyObject -> R)
    (args : list PyObject) (kwargs : list (string * PyObject)) : option R :=
  impl <$> load_args spec args kwargs.

Definition RangerRobot_init_args : list arg_record :=
  [py_arg_v "is_mini_v1" (PyBool false)].
Definition connect_args : list arg_record := [py_arg "can_name"].
Definition request_version_args : list arg_record :=
  [py_arg_v "timeout_sec" (PyInt 3)].
Definition set_motion_mode_args : list arg_record := [py_arg "mode"].
Definition set_motion_command_args : list arg_record :=
  [py_arg "linear_vel"; py_arg "steer_angle"; py_arg_v "angular_vel" (PyFloat 0)].
Definition set_light_command_args : list arg_record :=
  [py_arg "f_mode"; py_arg "f_value"; py_arg "r_mode"; py_arg "r_value"].

End ArgumentTables.

(** ** State Aggregator (C++ core, not part of the bindings) *)

Module StateAggregator.
Section Def.
Context {M : AgilexMessages}.

(** Modelled from the spec: the decoded messages the Frame Codec hands to
    the aggregator, one constructor per message kind of the data model;
    actuator messages carry the wheel index the codec extracted. *)
Inductive TypedMessage : Type :=
| SystemState (m : SystemStateMessage)
| MotionState (m : MotionStateMessage)
| LightState (m : LightStateMessage)
| RcState (m : RcStateMessage)
| ActuatorHSState (wheel : nat) (m : ActuatorHSStateMessage)
| ActuatorLSState (wheel : nat) (m : ActuatorLSStateMessage)
| BmsBasic (m : BmsBasicMessage).

(** Modelled from the spec: the aggregator owns the three aggregates. *)
Record t : Type := mk {
  core : RangerCoreState.t;
  actuator : RangerActuatorState.t;
  sensor : RangerCommonSensorState.t
}.

(** Modelled from the spec: [merge] of section 4.3.  It replaces exactly the
    field of the message's kind and refreshes that aggregate's timestamp to
    [now]; an actuator message whose wheel index is not in 0..3 is dropped. *)
Definition merge (now : Chrono.time_point) (msg : TypedMessage) (a : t) : t :=
  let c := core a in
  let u := actuator a in
  match msg with
  | SystemState m =>
      mk (RangerCoreState.mk now m (RangerCoreState.motion_state c)
            (RangerCoreState.light_state c) (RangerCoreState.motion_mode_state c)
            (RangerCoreState.rc_state c) (RangerCoreState.odometry c))
         u (sensor a)
  | MotionState m =>
      mk (RangerCoreState.mk now (RangerCoreState.system_state c) m
            (RangerCoreState.light_state c) (RangerCoreState.motion_mode_state c)
            (RangerCoreState.rc_state c) (RangerCoreState.odometry c))
         u (sensor a)
  | LightState m =>
      mk (RangerCoreState.mk now (RangerCoreState.system_state c)
            (RangerCoreState.motion_state c) m (RangerCoreState.motion_mode_state c)
            (RangerCoreState.rc_state c) (RangerCoreState.odometry c))
         u (sensor a)
  | RcState m =>
      mk (RangerCoreState.mk now (RangerCoreState.system_state c)
            (RangerCoreState.motion_state c) (RangerCoreState.light_state c)
            (RangerCoreState.motion_mode_state c) m (RangerCoreState.odometry c))
         u (sensor a)
  | ActuatorHSState wheel m =>
      if decide (wheel < RangerActuatorState.ACTUATOR_SLOTS) then
        mk c (RangerActuatorState.mk now (RangerActuatorState.motor_angles u)
                (RangerActuatorState.motor_speeds u)
                (<[wheel := m]> (RangerActuatorState.actuator_hs_state u))
                (RangerActuatorState.actuator_ls_state u))
           (sensor a)
      else a
  | ActuatorLSState wheel m =>
      if decide (wheel < RangerActuatorState.ACTUATOR_SLOTS) then
        mk c (RangerActuatorState.mk now (RangerActuatorState.motor_angles u)
                (RangerActuatorState.motor_speeds u)
                (RangerActuatorState.actuator_hs_state u)
                (<[wheel := m]> (RangerActuatorState.actuator_ls_state u)))
           (sensor a)
      else a
  | BmsBasic m => mk c u (RangerCommonSensorState.mk now m)
  end.

(** Modelled from the spec: two aggregator states that are identical except
    for the timestamps of their aggregates. *)
Definition same_except_time_stamp (a b : t) : Prop :=
  RangerCoreState.system_state (core a) = RangerCoreState.system_state (core b) /\
  RangerCoreState.motion_state (core a) = RangerCoreState.motion_state (core b) /\
  RangerCoreState.light_state (core a) = RangerCoreState.light_state (core b) /\
  RangerCoreState.motion_mode_state (core a) =
    RangerCoreState.motion_mode_state (core b) /\
  RangerCoreState.rc_state (core a) = RangerCoreState.rc_state (core b) /\
  RangerCoreState.odometry (core a) = RangerCoreState.odometry (core b) /\
  RangerActuatorState.motor_angles (actuator a) =
    RangerActuatorState.motor_angles (actuator b) /\
  RangerActuatorState.motor_speeds (actuator a) =
    RangerActuatorState.motor_speeds (actuator b) /\
  RangerActuatorState.actuator_hs_state (actuator a) =
    RangerActuatorState.actuator_hs_state (actuator b) /\
  RangerActuatorState.actuator_ls_state (actuator a) =
    RangerActuatorState.actuator_ls_state (actuator b) /\
  RangerCommonSensorState.bms_basic_state (sensor a) =
    RangerCommonSensorState.bms_basic_state (sensor b).

End Def.
End StateAggregator.

(** ** Command Dispatcher (C++ core, not part of the bindings) *)

Module CommandDispatcher.

(** Modelled from the spec: what sections 4.5 and 6 leave to the vehicle,
    the transport and the implementer.  The frames and their encoding belong
    to the Frame Codec.  [send] is the transport's
    [send(raw_frame) -> success | channel_error] on a channel in some state:
    [Some] is the channel after it took the frame, [None] the channel error.
    The limits are the physically sane range of each argument of
    [set_motion_command]; [fail_fast] is the choice between rejecting a
    command issued before commanded mode was enabled and sending it anyway. *)
Class Design : Type := {
  Frame : Type;
  Channel : Type;
  send : Channel -> Frame -> option Channel;
  encode_enable : Frame;
  encode_motion : float -> float -> float -> list Frame;
  linear_vel_min : float;
  linear_vel_max : float;
  steer_angle_min : float;
  steer_angle_max : float;
  angular_vel_min : float;
  angular_vel_max : float;
  fail_fast : bool
}.

(** Modelled from the spec: the conditions a command call surfaces
    (section 7).  The spec names none for a command issued after disconnect
    has started; [ConnectionClosed] stands for that refusal. *)
Inductive CommandError : Type :=
| InvalidArgument
| NotInCommandedMode
| ChannelError
| ConnectionClosed.

Section Def.
Context {D : Design}.

(** Modelled from the spec: the dispatcher's local state: the commanded-mode
    flag, whether the session still accepts sends (connected and no
    disconnect started), the channel, and the frames handed to the transport
    so far, oldest first. *)
Record t : Type := mk {
  commanded_mode : bool;
  accepting : bool;
  channel : Channel;
  handed : list Frame
}.

(** Modelled from the spec: a value is in range when it lies between the
    two limits; a NaN compares false and is out of range. *)
Definition within (lo hi x : float) : bool :=
  PrimFloat.leb lo x && PrimFloat.leb x hi.

(** Modelled from the spec: the channel after it took all of [frames] in
    order, if it takes them all. *)
Fixpoint channel_after (c : Channel) (frames : list Frame) : option Channel :=
  match frames with
  | [] => Some c
  | f :: rest =>
      match send c f with
      | None => None
      | Some c' => channel_after c' rest
      end
  end.

(** Modelled from the spec: the frames of one command are sent in their
    fixed order; a channel error on a frame is surfaced to the caller, the
    frames before it having been handed over already. *)
Fixpoint send_frames (frames : list Frame) (d : t) : (CommandError + unit) * t :=
  match frames with
  | [] => (inr tt, d)
  | f :: rest =>
      match send (channel d) f with
      | None => (inl ChannelError, d)
      | Some c => send_frames rest (mk (commanded_mode d) (accepting d) c (handed d ++ [f]))
      end
  end.

(** Modelled from the spec: once disconnect has started no command send is
    accepted any more. *)
Definition disconnect (d : t) : t :=
  mk (commanded_mode d) false (channel d) (handed d).

(** Modelled from the spec: the enabling command is sent once per session
    activation, not again on later calls. *)
Definition enable_commanded_mode (d : t) : (CommandError + unit) * t :=
  if commanded_mode d then (inr tt, d)
  else if negb (accepting d) then (inl ConnectionClosed, d)
  else
    match send (channel d) encode_enable with
    | None => (inl ChannelError, d)
    | Some c => (inr tt, mk true (accepting d) c (handed d ++ [encode_enable]))
    end.

(** Modelled from the spec: [set_motion_command] of section 4.5.  The
    arguments are validated before anything is encoded; an out-of-range
    value is an invalid-argument condition, never clamped.  A session that
    no longer accepts sends refuses the command.  Otherwise the command is
    encoded and its frames are handed to the transport, whose channel error
    is surfaced to the caller. *)
Definition set_motion_command (linear_vel steer_angle angular_vel : float) (d : t)
    : (CommandError + unit) * t :=
  if negb (within linear_vel_min linear_vel_max linear_vel &&
           within steer_angle_min steer_angle_max steer_angle &&
           within angular_vel_min angular_vel_max angular_vel)
  then (inl InvalidArgument, d)
  else if negb (accepting d)
  then (inl ConnectionClosed, d)
  else if fail_fast && negb (commanded_mode d)
  then (inl NotInCommandedMode, d)
  else send_frames (encode_motion linear_vel steer_angle angular_vel) d.

End Def.
End CommandDispatcher.

(** ** Concrete instances used to run the model *)

(** Messages that are plain integers, value-initialised to zero. *)
Definition int_messages : AgilexMessages :=
  Build_AgilexMessages Z Z Z Z Z Z Z Z Z Z Z 0%Z 0%Z 0%Z 0%Z 0%Z 0%Z 0%Z 0%Z 0%Z 0%Z 0%Z.

(** A dispatcher whose frames record the encoded arguments, with a steering
    range of half a radian either way, on a channel that takes as many more
    frames as its state says and then fails. *)
Definition sample_design : CommandDispatcher.Design :=
  CommandDispatcher.Build_Design (option (float * float * float)) nat
    (fun budget _ => match budget with O => None | S n => Some n end)
    None (fun l s a => [Some (l, s, a)])
    (-3)%float 3%float (-0.5)%float 0.5%float (-3)%float 3%float true.

(** The methods of [RangerRobot] that are bound with named arguments, under
    their Python names, each with its argument table. *)
Definition RangerRobot_arg_tables `{M : AgilexMessages}
    : list (string * list arg_record) :=
  [("__init__", RangerRobot_init_args);
   ("connect", connect_args);
   ("request_version", request_version_args);
   ("set_motion_mode", set_motion_mode_args);
   ("set_motion_command", set_motion_command_args);
   ("set_light_command", set_light_command_args)].

(** * Properties *)

(** ** Arithmetic of the timestamp conversions *)

Module ChronoFacts.
Import Chrono.
Local Open Scope Z_scope.

Lemma in_int64_spec z : in_int64 z = true <-> INT64_MIN <= z <= INT64_MAX.
Proof. unfold in_int64. rewrite andb_true_iff, !Z.leb_le. tauto. Qed.

Lemma wrap_int64_fits z : INT64_MIN <= z <= INT64_MAX -> wrap_int64 z = z.
Proof.
  unfold wrap_int64, INT64_MIN, INT64_MAX. intros Hz.
  rewrite Z.mod_small by lia. lia.
Qed.

Lemma wrap_int64_range z : INT64_MIN <= wrap_int64 z <= INT64_MAX.
Proof.
  unfold wrap_int64, INT64_MIN, INT64_MAX.
  pose proof (Z.mod_pos_bound (z + 2 ^ 63) (2 ^ 64) ltac:(lia)). lia.
Qed.

Lemma wrap_int64_congruent z : (wrap_int64 z - z) mod 2 ^ 64 = 0.
Proof.
  unfold wrap_int64.
  replace ((z + 2 ^ 63) mod 2 ^ 64 - 2 ^ 63 - z)
    with ((z + 2 ^ 63) mod 2 ^ 64 - (z + 2 ^ 63)) by lia.
  rewrite Zminus_mod_idemp_l, Z.sub_diag. reflexivity.
Qed.

(** The tick count of [ms] milliseconds fits 64 bits exactly when [ms] is
    within [MS_LIMIT] of zero. *)
Lemma ticks_fit_iff ms :
  INT64_MIN <= ms * ticks_per_ms <= INT64_MAX <-> - MS_LIMIT <= ms <= MS_LIMIT.
Proof. unfold INT64_MIN, INT64_MAX, ticks_per_ms, MS_LIMIT. lia. Qed.

(** Truncation toward zero: the millisecond count is the one whose tick
    count is nearest to [d] on the side of zero. *)
Lemma duration_cast_trunc d :
  let q := duration_cast_milliseconds d in
  (0 <= d -> q * ticks_per_ms <= d < (q + 1) * ticks_per_ms) /\
  (d <= 0 -> (q - 1) * ticks_per_ms < d <= q * ticks_per_ms).
Proof.
  unfold duration_cast_milliseconds, ticks_per_ms. cbn zeta.
  pose proof (Z.quot_rem' d 1000000) as E.
  split; intros Hd.
  - pose proof (Z.rem_bound_pos d 1000000 Hd ltac:(lia)). lia.
  - pose proof (Z.rem_bound_pos_neg d 1000000 ltac:(lia) Hd). lia.
Qed.

Lemma duration_cast_exact ms :
  duration_cast_milliseconds (ms * ticks_per_ms) = ms.
Proof. unfold duration_cast_milliseconds, ticks_per_ms. apply Z.quot_mul. lia. Qed.

Lemma duration_cast_bounded d :
  INT64_MIN <= d <= INT64_MAX ->
  - MS_LIMIT <= duration_cast_milliseconds d <= MS_LIMIT.
Proof.
  intros Hd. pose proof (duration_cast_trunc d) as [Hp Hn].
  unfold INT64_MIN, INT64_MAX, MS_LIMIT, ticks_per_ms in *.
  destruct (Z.le_ge_cases 0 d) as [H0 | H0];
    [specialize (Hp H0) | specialize (Hn H0)]; lia.
Qed.

Lemma round_trip_fits ms : - MS_LIMIT <= ms <= MS_LIMIT -> round_trip ms = ms.
Proof.
  intros Hms. unfold round_trip, time_point_of_milliseconds. cbn.
  rewrite wrap_int64_fits by (apply ticks_fit_iff; exact Hms).
  apply duration_cast_exact.
Qed.

Lemma round_trip_bounded ms : - MS_LIMIT <= round_trip ms <= MS_LIMIT.
Proof.
  unfold round_trip, time_point_of_milliseconds. cbn.
  apply duration_cast_bounded, wrap_int64_range.
Qed.

Lemma round_trip_iff ms : round_trip ms = ms <-> - MS_LIMIT <= ms <= MS_LIMIT.
Proof.
  split.
  - intros E. rewrite <- E. apply round_trip_bounded.
  - apply round_trip_fits.
Qed.

End ChronoFacts.

(** ** The time_stamp property of the three aggregates *)

Section TimeStampFacts.
Context {M : AgilexMessages}.
Import Chrono ChronoFacts.
Local Open Scope Z_scope.

Lemma core_get_set ms (s : RangerCoreState.t) :
  RangerCoreState.get_time_stamp (RangerCoreState.set_time_stamp ms s) = round_trip ms.
Proof. reflexivity. Qed.

Lemma actuator_get_set ms (s : RangerActuatorState.t) :
  RangerActuatorState.get_time_stamp (RangerActuatorState.set_time_stamp ms s)
  = round_trip ms.
Proof. reflexivity. Qed.

Lemma sensor_get_set ms (s : RangerCommonSensorState.t) :
  RangerCommonSensorState.get_time_stamp (RangerCommonSensorState.set_time_stamp ms s)
  = round_trip ms.
Proof. reflexivity. Qed.

Lemma with_long_long_fits {St : Type} (f : Z -> St -> St) ms s :
  in_int64 ms = true -> with_long_long f ms s = Returned (f ms s).
Proof. intros H. unfold with_long_long. rewrite H. reflexivity. Qed.

Lemma with_long_long_refused {St : Type} (f : Z -> St -> St) ms s :
  in_int64 ms = false -> with_long_long f ms s = Raised TypeError s.
Proof. intros H. unfold with_long_long. rewrite H. reflexivity. Qed.

Lemma ms_limit_in_int64 ms : - MS_LIMIT <= ms <= MS_LIMIT -> in_int64 ms = true.
Proof.
  intros H. apply in_int64_spec. unfold MS_LIMIT, INT64_MIN, INT64_MAX in *. lia.
Qed.

Lemma stored_after_round_trip d :
  INT64_MIN <= d <= INT64_MAX ->
  time_since_epoch (time_point_of_milliseconds (duration_cast_milliseconds d))
  = d - Z.rem d ticks_per_ms.
Proof.
  intros Hd. unfold time_point_of_milliseconds. cbn.
  pose proof (duration_cast_bounded d Hd) as Hb.
  rewrite wrap_int64_fits by (apply ticks_fit_iff; exact Hb).
  unfold duration_cast_milliseconds.
  pose proof (Z.quot_rem' d ticks_per_ms). lia.
Qed.

Lemma duration_cast_in_millisecond q d :
  within_millisecond q d -> duration_cast_milliseconds d = q.
Proof.
  unfold within_millisecond. intros H.
  pose proof (duration_cast_trunc d) as [Hp Hn]. cbn zeta in *.
  unfold ticks_per_ms in *.
  destruct H as [[Hq Hd] | [Hq Hd]].
  - assert (0 <= d) as H0 by lia. specialize (Hp H0). nia.
  - assert (d <= 0) as H0 by lia. specialize (Hn H0). nia.
Qed.

End TimeStampFacts.

(** C3, as stated, fails: 9223372036855 ms is a valid [long long], the
    setter accepts it, and the getter then returns -9223372036854, the tick
    count having wrapped.  An integer beyond [long long], such as 2^63, is
    not even accepted: the write raises and the timestamp stays as it was. *)
Lemma time_stamp_set_get_counterexample :
  let s := RangerCoreState.init (M := int_messages) in
  RangerCoreState.py_set_time_stamp 9223372036855 s
    = Returned (RangerCoreState.set_time_stamp 9223372036855 s) /\
  RangerCoreState.get_time_stamp (RangerCoreState.set_time_stamp 9223372036855 s)
    = (-9223372036854)%Z /\
  RangerCoreState.get_time_stamp (RangerCoreState.set_time_stamp 9223372036855 s)
    <> 9223372036855%Z /\
  RangerCoreState.py_set_time_stamp (2 ^ 63) s = Raised TypeError s.
Proof. cbn zeta. repeat split. vm_compute. discriminate. Qed.

(** C3 (amended): for each of the three aggregate records and every integer
    ms with -9223372036854 <= ms <= 9223372036854, setting [time_stamp] to ms
    succeeds and reading it then returns exactly ms. *)
Theorem time_stamp_set_get_in_range `{M : AgilexMessages} (ms : Z) :
  (- Chrono.MS_LIMIT <= ms <= Chrono.MS_LIMIT)%Z ->
  (forall s : RangerCoreState.t,
     RangerCoreState.py_set_time_stamp ms s
       = Returned (RangerCoreState.set_time_stamp ms s) /\
     RangerCoreState.get_time_stamp (RangerCoreState.set_time_stamp ms s) = ms) /\
  (forall s : RangerActuatorState.t,
     RangerActuatorState.py_set_time_stamp ms s
       = Returned (RangerActuatorState.set_time_stamp ms s) /\
     RangerActuatorState.get_time_stamp (RangerActuatorState.set_time_stamp ms s) = ms) /\
  (forall s : RangerCommonSensorState.t,
     RangerCommonSensorState.py_set_time_stamp ms s
       = Returned (RangerCommonSensorState.set_time_stamp ms s) /\
     RangerCommonSensorState.get_time_stamp
       (RangerCommonSensorState.set_time_stamp ms s) = ms).
Proof.
  intros Hms. pose proof (ms_limit_in_int64 ms Hms) as Hfit.
  pose proof (ChronoFacts.round_trip_fits ms Hms) as Hrt.
  split; [| split]; intros s;
    (split; [apply with_long_long_fits; exact Hfit |]).
  - rewrite core_get_set. exact Hrt.
  - rewrite actuator_get_set. exact Hrt.
  - rewrite sensor_get_set. exact Hrt.
Qed.

Lemma time_stamp_set_get_in_range_witness :
  (- Chrono.MS_LIMIT <= 1718000000123 <= Chrono.MS_LIMIT)%Z /\
  RangerActuatorState.get_time_stamp
    (RangerActuatorState.set_time_stamp 1718000000123
       (RangerActuatorState.init (M := int_messages))) = 1718000000123%Z.
Proof.
  assert (- Chrono.MS_LIMIT <= 1718000000123 <= Chrono.MS_LIMIT)%Z as H
    by (unfold Chrono.MS_LIMIT; lia).
  split; [exact H |].
  apply (time_stamp_set_get_in_range (M := int_messages) 1718000000123 H).
Defined.

(** C8: for every aggregate record, reading [time_stamp] truncates the
    stored instant toward zero to whole milliseconds: two stored instants
    within the same millisecond read as the same integer, and writing back
    what was read drops the sub-millisecond remainder of the stored instant. *)
Theorem time_stamp_read_truncates `{M : AgilexMessages} :
  (forall (s1 s2 : RangerCoreState.t) (q : Z),
     Chrono.within_millisecond q (Chrono.time_since_epoch (RangerCoreState.time_stamp s1)) ->
     Chrono.within_millisecond q (Chrono.time_since_epoch (RangerCoreState.time_stamp s2)) ->
     RangerCoreState.get_time_stamp s1 = q /\ RangerCoreState.get_time_stamp s2 = q) /\
  (forall (s1 s2 : RangerActuatorState.t) (q : Z),
     Chrono.within_millisecond q (Chrono.time_since_epoch (RangerActuatorState.time_stamp s1)) ->
     Chrono.within_millisecond q (Chrono.time_since_epoch (RangerActuatorState.time_stamp s2)) ->
     RangerActuatorState.get_time_stamp s1 = q /\
     RangerActuatorState.get_time_stamp s2 = q) /\
  (forall (s1 s2 : RangerCommonSensorState.t) (q : Z),
     Chrono.within_millisecond q
       (Chrono.time_since_epoch (RangerCommonSensorState.time_stamp s1)) ->
     Chrono.within_millisecond q
       (Chrono.time_since_epoch (RangerCommonSensorState.time_stamp s2)) ->
     RangerCommonSensorState.get_time_stamp s1 = q /\
     RangerCommonSensorState.get_time_stamp s2 = q) /\
  (forall (s : RangerCoreState.t),
     let d := Chrono.time_since_epoch (RangerCoreState.time_stamp s) in
     let s' := RangerCoreState.set_time_stamp (RangerCoreState.get_time_stamp s) s in
     (Chrono.INT64_MIN <= d <= Chrono.INT64_MAX)%Z ->
     Chrono.time_since_epoch (RangerCoreState.time_stamp s')
       = (d - Z.rem d Chrono.ticks_per_ms)%Z /\
     RangerCoreState.get_time_stamp s' = RangerCoreState.get_time_stamp s) /\
  (forall (s : RangerActuatorState.t),
     let d := Chrono.time_since_epoch (RangerActuatorState.time_stamp s) in
     let s' := RangerActuatorState.set_time_stamp (RangerActuatorState.get_time_stamp s) s in
     (Chrono.INT64_MIN <= d <= Chrono.INT64_MAX)%Z ->
     Chrono.time_since_epoch (RangerActuatorState.time_stamp s')
       = (d - Z.rem d Chrono.ticks_per_ms)%Z /\
     RangerActuatorState.get_time_stamp s' = RangerActuatorState.get_time_stamp s) /\
  (forall (s : RangerCommonSensorState.t),
     let d := Chrono.time_since_epoch (RangerCommonSensorState.time_stamp s) in
     let s' := RangerCommonSensorState.set_time_stamp
                 (RangerCommonSensorState.get_time_stamp s) s in
     (Chrono.INT64_MIN <= d <= Chrono.INT64_MAX)%Z ->
     Chrono.time_since_epoch (RangerCommonSensorState.time_stamp s')
       = (d - Z.rem d Chrono.ticks_per_ms)%Z /\
     RangerCommonSensorState.get_time_stamp s'
       = RangerCommonSensorState.get_time_stamp s).
Proof.
  assert (forall d, (Chrono.INT64_MIN <= d <= Chrono.INT64_MAX)%Z ->
            Chrono.round_trip (Chrono.duration_cast_milliseconds d)
            = Chrono.duration_cast_milliseconds d) as Hagain.
  { intros d Hd. apply ChronoFacts.round_trip_fits.
    apply ChronoFacts.duration_cast_bounded, Hd. }
  repeat apply conj.
  - intros s1 s2 q H1 H2. split; apply duration_cast_in_millisecond; assumption.
  - intros s1 s2 q H1 H2. split; apply duration_cast_in_millisecond; assumption.
  - intros s1 s2 q H1 H2. split; apply duration_cast_in_millisecond; assumption.
  - intros s d s' Hd. split.
    + apply stored_after_round_trip, Hd.
    + subst s'. rewrite core_get_set. apply Hagain, Hd.
  - intros s d s' Hd. split.
    + apply stored_after_round_trip, Hd.
    + subst s'. rewrite actuator_get_set. apply Hagain, Hd.
  - intros s d s' Hd. split.
    + apply stored_after_round_trip, Hd.
    + subst s'. rewrite sensor_get_set. apply Hagain, Hd.
Qed.

Lemma time_stamp_read_truncates_witness :
  let at_ticks d := RangerCoreState.mk (M := int_messages)
                      (Chrono.mk_time_point d) 0%Z 0%Z 0%Z 0%Z 0%Z 0%Z in
  (Chrono.within_millisecond (-1) (-1000001) /\
   Chrono.within_millisecond (-1) (-1999999)) /\
  (RangerCoreState.get_time_stamp (at_ticks (-1000001)%Z) = (-1)%Z /\
   RangerCoreState.get_time_stamp (at_ticks (-1999999)%Z) = (-1)%Z).
Proof.
  cbn zeta.
  assert (Chrono.within_millisecond (-1) (-1000001)) as H1
    by (right; unfold Chrono.ticks_per_ms; lia).
  assert (Chrono.within_millisecond (-1) (-1999999)) as H2
    by (right; unfold Chrono.ticks_per_ms; lia).
  split; [split; assumption |].
  exact (proj1 (time_stamp_read_truncates (M := int_messages))
           (RangerCoreState.mk (M := int_messages)
              (Chrono.mk_time_point (-1000001)) 0%Z 0%Z 0%Z 0%Z 0%Z 0%Z)
           (RangerCoreState.mk (M := int_messages)
              (Chrono.mk_time_point (-1999999)) 0%Z 0%Z 0%Z 0%Z 0%Z 0%Z)
           (-1)%Z H1 H2).
Defined.

(** C9, as stated, fails: -9223372036855 ms is accepted without raising,
    but the read that follows returns 9223372036854, not the value set; and
    a negative integer below the range of [long long], such as -2^63 - 1, is
    not accepted at all: the write raises and stores nothing. *)
Lemma time_stamp_negative_counterexample :
  let s := RangerCommonSensorState.init (M := int_messages) in
  RangerCommonSensorState.py_set_time_stamp (-9223372036855) s
    = Returned (RangerCommonSensorState.set_time_stamp (-9223372036855) s) /\
  RangerCommonSensorState.get_time_stamp
    (RangerCommonSensorState.set_time_stamp (-9223372036855) s) = 9223372036854%Z /\
  RangerCommonSensorState.get_time_stamp
    (RangerCommonSensorState.set_time_stamp (-9223372036855) s)
    <> (-9223372036855)%Z /\
  RangerCommonSensorState.py_set_time_stamp (- 2 ^ 63 - 1) s = Raised TypeError s.
Proof. cbn zeta. repeat split. vm_compute. discriminate. Qed.

(** C9 (amended): the [time_stamp] setter validates no range of its own: for
    every integer ms that fits a [long long], negative or not, setting an
    aggregate's [time_stamp] to ms returns without raising; and for every ms
    with -9223372036854 <= ms <= 9223372036854, every negative value of that
    range included, a subsequent read returns that value. *)
Theorem time_stamp_setter_unvalidated `{M : AgilexMessages} (ms : Z) :
  Chrono.in_int64 ms = true ->
  ((forall s : RangerCoreState.t,
      raised (RangerCoreState.py_set_time_stamp ms s) = false) /\
   (forall s : RangerActuatorState.t,
      raised (RangerActuatorState.py_set_time_stamp ms s) = false) /\
   (forall s : RangerCommonSensorState.t,
      raised (RangerCommonSensorState.py_set_time_stamp ms s) = false)) /\
  ((- Chrono.MS_LIMIT <= ms <= Chrono.MS_LIMIT)%Z ->
   (forall s : RangerCoreState.t,
      RangerCoreState.get_time_stamp
        (final_state (RangerCoreState.py_set_time_stamp ms s)) = ms) /\
   (forall s : RangerActuatorState.t,
      RangerActuatorState.get_time_stamp
        (final_state (RangerActuatorState.py_set_time_stamp ms s)) = ms) /\
   (forall s : RangerCommonSensorState.t,
      RangerCommonSensorState.get_time_stamp
        (final_state (RangerCommonSensorState.py_set_time_stamp ms s)) = ms)).
Proof.
  intros Hfit. split.
  - repeat apply conj; intros s;
      unfold RangerCoreState.py_set_time_stamp,
        RangerActuatorState.py_set_time_stamp,
        RangerCommonSensorState.py_set_time_stamp;
      rewrite with_long_long_fits by exact Hfit; reflexivity.
  - intros Hrange.
    pose proof (ChronoFacts.round_trip_fits ms Hrange) as Hrt.
    repeat apply conj; intros s;
      unfold RangerCoreState.py_set_time_stamp,
        RangerActuatorState.py_set_time_stamp,
        RangerCommonSensorState.py_set_time_stamp;
      rewrite with_long_long_fits by exact Hfit; cbn [final_state].
    + rewrite core_get_set. exact Hrt.
    + rewrite actuator_get_set. exact Hrt.
    + rewrite sensor_get_set. exact Hrt.
Qed.

Lemma time_stamp_setter_unvalidated_witness :
  Chrono.in_int64 (-86400000) = true /\
  (- Chrono.MS_LIMIT <= -86400000 <= Chrono.MS_LIMIT)%Z /\
  RangerCommonSensorState.get_time_stamp
    (final_state (RangerCommonSensorState.py_set_time_stamp (-86400000)
                    (RangerCommonSensorState.init (M := int_messages))))
  = (-86400000)%Z.
Proof.
  assert (Chrono.in_int64 (-86400000) = true) as H1 by reflexivity.
  assert (- Chrono.MS_LIMIT <= -86400000 <= Chrono.MS_LIMIT)%Z as H2
    by (unfold Chrono.MS_LIMIT; lia).
  split; [exact H1 | split; [exact H2 |]].
  apply (proj2 (time_stamp_setter_unvalidated (M := int_messages) (-86400000) H1) H2).
Defined.

(** C10: the round trip holds only while the millisecond count, multiplied
    by the 10^6 ticks of a millisecond, fits the clock's signed 64-bit tick
    count.  For an ms whose tick count overflows, the setter stores the tick
    count wrapped modulo 2^64, and set-then-get returns the milliseconds of
    that wrapped count, which is never ms. *)
Theorem time_stamp_overflow_wraps `{M : AgilexMessages} (ms : Z) :
  Chrono.in_int64 ms = true ->
  ~ (Chrono.INT64_MIN <= ms * Chrono.ticks_per_ms <= Chrono.INT64_MAX)%Z ->
  let stored := Chrono.wrap_int64 (ms * Chrono.ticks_per_ms) in
  ((stored - ms * Chrono.ticks_per_ms) mod 2 ^ 64 = 0)%Z /\
  stored <> (ms * Chrono.ticks_per_ms)%Z /\
  (forall s : RangerCoreState.t,
     let s' := RangerCoreState.set_time_stamp ms s in
     RangerCoreState.py_set_time_stamp ms s = Returned s' /\
     Chrono.time_since_epoch (RangerCoreState.time_stamp s') = stored /\
     RangerCoreState.get_time_stamp s' = Chrono.duration_cast_milliseconds stored /\
     RangerCoreState.get_time_stamp s' <> ms) /\
  (forall s : RangerActuatorState.t,
     let s' := RangerActuatorState.set_time_stamp ms s in
     RangerActuatorState.py_set_time_stamp ms s = Returned s' /\
     Chrono.time_since_epoch (RangerActuatorState.time_stamp s') = stored /\
     RangerActuatorState.get_time_stamp s' = Chrono.duration_cast_milliseconds stored /\
     RangerActuatorState.get_time_stamp s' <> ms) /\
  (forall s : RangerCommonSensorState.t,
     let s' := RangerCommonSensorState.set_time_stamp ms s in
     RangerCommonSensorState.py_set_time_stamp ms s = Returned s' /\
     Chrono.time_since_epoch (RangerCommonSensorState.time_stamp s') = stored /\
     RangerCommonSensorState.get_time_stamp s'
       = Chrono.duration_cast_milliseconds stored /\
     RangerCommonSensorState.get_time_stamp s' <> ms).
Proof.
  intros Hfit Hover stored.
  assert (Chrono.round_trip ms <> ms) as Hne.
  { intros E. apply Hover, ChronoFacts.ticks_fit_iff, ChronoFacts.round_trip_iff, E. }
  split; [apply ChronoFacts.wrap_int64_congruent |].
  split.
  { intros E. apply Hover. rewrite <- E. apply ChronoFacts.wrap_int64_range. }
  repeat apply conj; intros s s'; subst s';
    (split; [apply with_long_long_fits; exact Hfit |]);
    (split; [reflexivity |]); (split; [reflexivity |]).
  - rewrite core_get_set. exact Hne.
  - rewrite actuator_get_set. exact Hne.
  - rewrite sensor_get_set. exact Hne.
Qed.

Lemma time_stamp_overflow_wraps_witness :
  (Chrono.in_int64 9223372036854775807 = true /\
   ~ (Chrono.INT64_MIN <= 9223372036854775807 * Chrono.ticks_per_ms
      <= Chrono.INT64_MAX)%Z) /\
  (Chrono.wrap_int64 (9223372036854775807 * Chrono.ticks_per_ms) = (-1000000)%Z /\
   RangerActuatorState.get_time_stamp
     (RangerActuatorState.set_time_stamp 9223372036854775807
        (RangerActuatorState.init (M := int_messages))) <> 9223372036854775807%Z).
Proof.
  assert (Chrono.in_int64 9223372036854775807 = true) as H1 by reflexivity.
  assert (~ (Chrono.INT64_MIN <= 9223372036854775807 * Chrono.ticks_per_ms
             <= Chrono.INT64_MAX)%Z) as H2
    by (unfold Chrono.INT64_MIN, Chrono.INT64_MAX, Chrono.ticks_per_ms; lia).
  split; [split; [exact H1 | exact H2] |].
  split; [reflexivity |].
  apply (time_stamp_overflow_wraps (M := int_messages) 9223372036854775807 H1 H2).
Defined.

(** ** The conversion loop of the actuator setters *)

Section SetterLoop.
Context {M : AgilexMessages} {St T : Type}.
Variable arr : St -> list T.
Variable cast : St -> PyObject -> option T.
Variable store : nat -> T -> St -> St.
Hypothesis arr_store : forall i m s, arr (store i m s) = <[i := m]> (arr s).
Hypothesis cast_stable :
  forall s s' o, length (arr s') = length (arr s) ->
                 (cast s' o = None <-> cast s o = None).
Variable l : list PyObject.

Local Abbreviation loop count from := (for_loop count from (assign_slot cast store l)).

Lemma loop_step count from s :
  loop (S count) from s =
  match l !! from with
  | None => Raised IndexError s
  | Some o =>
      match cast s o with
      | None => Raised (cast_failure o) s
      | Some m => loop count (S from) (store from m s)
      end
  end.
Proof.
  cbn [for_loop]. unfold seq_stmt at 1, assign_slot at 1.
  destruct (l !! from) as [o |]; [| reflexivity].
  destruct (cast s o); reflexivity.
Qed.

Lemma cast_after_store s i m o : cast (store i m s) o = None <-> cast s o = None.
Proof. apply cast_stable. rewrite arr_store. apply length_insert. Qed.

(** Whatever every single store preserves, the loop preserves, raising or not. *)
Lemma loop_preserves (P : St -> Prop) :
  (forall i m s, P s -> P (store i m s)) ->
  forall count from s, P s -> P (final_state (loop count from s)).
Proof.
  intros HP. induction count as [| count IH]; intros from s Hs.
  - exact Hs.
  - rewrite loop_step. destruct (l !! from) as [o |]; [| exact Hs].
    destruct (cast s o) as [m |]; [| exact Hs].
    apply IH, HP, Hs.
Qed.

Lemma loop_length count from s :
  length (arr (final_state (loop count from s))) = length (arr s).
Proof.
  apply (loop_preserves (fun s' => length (arr s') = length (arr s))); [| reflexivity].
  intros i m s' Hs'. rewrite arr_store, length_insert. exact Hs'.
Qed.

(** Slots outside the range the loop runs over keep their value. *)
Lemma loop_outside count from s j :
  j < from \/ from + count <= j ->
  arr (final_state (loop count from s)) !! j = arr s !! j.
Proof.
  revert from s. induction count as [| count IH]; intros from s Hj.
  - reflexivity.
  - rewrite loop_step. destruct (l !! from) as [o |]; [| reflexivity].
    destruct (cast s o) as [m |]; [| reflexivity].
    rewrite IH by lia. rewrite arr_store. apply list_lookup_insert_ne. lia.
Qed.

(** The loop stops at or before any item that cannot be converted, so the
    slots from that item's position on keep their value. *)
Lemma loop_stops count from s k o :
  from <= k < from + count -> l !! k = Some o -> cast s o = None ->
  raised (loop count from s) = true /\
  forall j, k <= j -> arr (final_state (loop count from s)) !! j = arr s !! j.
Proof.
  revert from s. induction count as [| count IH]; intros from s Hk Hl Hc.
  - lia.
  - rewrite loop_step. destruct (l !! from) as [o' |] eqn:El; [| split; reflexivity].
    destruct (cast s o') as [m |] eqn:Ec; [| split; reflexivity].
    assert (from <> k) as Hne by (intros ->; congruence).
    destruct (IH (S from) (store from m s)) as [Hr Hj];
      [lia | exact Hl | apply cast_after_store; exact Hc |].
    split; [exact Hr |]. intros j Hkj.
    rewrite Hj by exact Hkj. rewrite arr_store.
    apply list_lookup_insert_ne. lia.
Qed.

(** When every item the loop fetches can be converted, it does not raise. *)
Lemma loop_accepts count from s :
  (forall k, from <= k < from + count ->
             exists o, l !! k = Some o /\ is_Some (cast s o)) ->
  raised (loop count from s) = false.
Proof.
  revert from s. induction count as [| count IH]; intros from s Hall.
  - reflexivity.
  - rewrite loop_step.
    destruct (Hall from ltac:(lia)) as (o & -> & [m ->]).
    apply IH. intros k Hk. destruct (Hall k ltac:(lia)) as (o' & Hl & Hs).
    exists o'. split; [exact Hl |].
    rewrite <- not_eq_None_Some in *. rewrite cast_after_store. exact Hs.
Qed.

(** A raise comes from an item that is missing or cannot be converted. *)
Lemma loop_raised count from s :
  raised (loop count from s) = true ->
  exists k, from <= k < from + count /\
            (l !! k = None \/ exists o, l !! k = Some o /\ cast s o = None).
Proof.
  revert from s. induction count as [| count IH]; intros from s Hr.
  - discriminate.
  - rewrite loop_step in Hr. destruct (l !! from) as [o |] eqn:El.
    + destruct (cast s o) as [m |] eqn:Ec.
      * destruct (IH _ _ Hr) as (k & Hk & Hwhy). exists k. split; [lia |].
        destruct Hwhy as [Hnone | (o' & Hl & Hc)]; [left; exact Hnone |].
        right. exists o'. split; [exact Hl |]. apply cast_after_store in Hc. exact Hc.
      * exists from. split; [lia |]. right. exists o. split; [exact El | exact Ec].
    + exists from. split; [lia |]. left. exact El.
Qed.

End SetterLoop.

(** ** The actuator array properties of RangerActuatorState *)

Section ActuatorFacts.
Context {M : AgilexMessages}.
Import RangerActuatorState.

Lemma hs_arr_store i m s :
  actuator_hs_state (store_hs i m s) = <[i := m]> (actuator_hs_state s).
Proof. reflexivity. Qed.

Lemma ls_arr_store i m s :
  actuator_ls_state (store_ls i m s) = <[i := m]> (actuator_ls_state s).
Proof. reflexivity. Qed.

Lemma hs_cast_stable s s' o :
  length (actuator_hs_state s') = length (actuator_hs_state s) ->
  (cast_hs s' o = None <-> cast_hs s o = None).
Proof.
  intros Hlen. destruct o; cbn; try tauto.
  rewrite !lookup_ge_None, Hlen. tauto.
Qed.

Lemma ls_cast_stable s s' o :
  length (actuator_ls_state s') = length (actuator_ls_state s) ->
  (cast_ls s' o = None <-> cast_ls s o = None).
Proof.
  intros Hlen. destruct o; cbn; try tauto.
  rewrite !lookup_ge_None, Hlen. tauto.
Qed.

Lemma set_hs_wrong_length l s :
  length l <> 4 ->
  set_actuator_hs_state l s = Raised (RuntimeError "List size must be 4") s.
Proof. intros H. unfold set_actuator_hs_state. rewrite decide_True by exact H. reflexivity. Qed.

Lemma set_ls_wrong_length l s :
  length l <> 4 ->
  set_actuator_ls_state l s = Raised (RuntimeError "List size must be 4") s.
Proof. intros H. unfold set_actuator_ls_state. rewrite decide_True by exact H. reflexivity. Qed.

Lemma set_hs_right_length l s :
  length l = 4 -> set_actuator_hs_state l s = for_loop 4 0 (assign_hs l) s.
Proof.
  intros H. unfold set_actuator_hs_state. rewrite decide_False by (rewrite H; auto).
  reflexivity.
Qed.

Lemma set_ls_right_length l s :
  length l = 4 -> set_actuator_ls_state l s = for_loop 4 0 (assign_ls l) s.
Proof.
  intros H. unfold set_actuator_ls_state. rewrite decide_False by (rewrite H; auto).
  reflexivity.
Qed.

(** Both setters keep the lengths of both arrays, raising or not. *)
Lemma set_hs_lengths l s :
  length (actuator_hs_state (final_state (set_actuator_hs_state l s)))
    = length (actuator_hs_state s) /\
  actuator_ls_state (final_state (set_actuator_hs_state l s)) = actuator_ls_state s.
Proof.
  destruct (decide (length l = 4)) as [H | H].
  - rewrite set_hs_right_length by exact H. split.
    + apply (loop_length actuator_hs_state cast_hs store_hs hs_arr_store).
    + apply (loop_preserves cast_hs store_hs l
               (fun s' => actuator_ls_state s' = actuator_ls_state s));
        [intros i m s' Hs'; exact Hs' | reflexivity].
  - rewrite set_hs_wrong_length by exact H. split; reflexivity.
Qed.

Lemma set_ls_lengths l s :
  length (actuator_ls_state (final_state (set_actuator_ls_state l s)))
    = length (actuator_ls_state s) /\
  actuator_hs_state (final_state (set_actuator_ls_state l s)) = actuator_hs_state s.
Proof.
  destruct (decide (length l = 4)) as [H | H].
  - rewrite set_ls_right_length by exact H. split.
    + apply (loop_length actuator_ls_state cast_ls store_ls ls_arr_store).
    + apply (loop_preserves cast_ls store_ls l
               (fun s' => actuator_hs_state s' = actuator_hs_state s));
        [intros i m s' Hs'; exact Hs' | reflexivity].
  - rewrite set_ls_wrong_length by exact H. split; reflexivity.
Qed.

Lemma perform_well_formed op s :
  well_formed s -> well_formed (final_state (perform op s)).
Proof.
  intros [Hhs Hls]. unfold well_formed.
  destruct op as [name | ms | v | v | l | l]; cbn [perform].
  - split; assumption.
  - unfold py_set_time_stamp, with_long_long.
    destruct (Chrono.in_int64 ms); split; assumption.
  - split; assumption.
  - split; assumption.
  - destruct (set_hs_lengths l s) as [E1 E2]. rewrite E1, E2. split; assumption.
  - destruct (set_ls_lengths l s) as [E1 E2]. rewrite E1, E2. split; assumption.
Qed.

Lemma run_well_formed ops s : well_formed s -> well_formed (run ops s).
Proof.
  revert s. induction ops as [| op ops IH]; intros s Hs.
  - exact Hs.
  - cbn. apply IH, perform_well_formed, Hs.
Qed.

Lemma init_well_formed : well_formed init.
Proof. split; reflexivity. Qed.

Lemma getters_length s :
  length (get_actuator_hs_state s) = length (actuator_hs_state s) /\
  length (get_actuator_ls_state s) = length (actuator_ls_state s).
Proof.
  unfold get_actuator_hs_state, get_actuator_ls_state.
  rewrite !length_imap. split; reflexivity.
Qed.

(** Reading the getter's wrappers shows the array, slot by slot. *)
Lemma get_hs_shows_slots s :
  cast_hs s <$> get_actuator_hs_state s = Some <$> actuator_hs_state s.
Proof.
  unfold get_actuator_hs_state. apply list_eq. intros i.
  rewrite !list_lookup_fmap, list_lookup_imap.
  destruct (actuator_hs_state s !! i) as [m |] eqn:E; cbn; [| reflexivity].
  rewrite E. reflexivity.
Qed.

Lemma get_ls_shows_slots s :
  cast_ls s <$> get_actuator_ls_state s = Some <$> actuator_ls_state s.
Proof.
  unfold get_actuator_ls_state. apply list_eq. intros i.
  rewrite !list_lookup_fmap, list_lookup_imap.
  destruct (actuator_ls_state s !! i) as [m |] eqn:E; cbn; [| reflexivity].
  rewrite E. reflexivity.
Qed.

(** Writing four messages that own their value replaces the whole array. *)
Lemma set_hs_owned_messages a b c d s :
  well_formed s ->
  set_actuator_hs_state [PyActuatorHS a; PyActuatorHS b; PyActuatorHS c; PyActuatorHS d] s
  = Returned (mk (time_stamp s) (motor_angles s) (motor_speeds s) [a; b; c; d]
                (actuator_ls_state s)).
Proof.
  intros [Hhs _]. destruct s as [ts ma msp hs ls]. cbn in Hhs.
  destruct hs as [| h0 [| h1 [| h2 [| h3 [| h4 hs]]]]]; try discriminate.
  reflexivity.
Qed.

(** Writing the wrappers read from the record itself back in reverse order
    copies slot by slot: the second half is converted after the first half
    was overwritten. *)
Lemma set_hs_own_wrappers_reversed a b c d s :
  actuator_hs_state s = [a; b; c; d] ->
  actuator_hs_state
    (final_state (set_actuator_hs_state (reverse (get_actuator_hs_state s)) s))
  = [d; c; c; d].
Proof.
  destruct s as [ts ma msp hs ls]. cbn. intros ->. reflexivity.
Qed.

End ActuatorFacts.

(** C1: for every actuator state record and every list whose length is not
    4, writing the list to [actuator_hs_state] or [actuator_ls_state] raises
    ("List size must be 4"); a write of a list of 4 objects that are all
    actuator messages of the property's type is accepted. *)
Theorem actuator_setters_check_length `{M : AgilexMessages}
    (s : RangerActuatorState.t) (l : list PyObject) :
  (length l <> 4 ->
   RangerActuatorState.set_actuator_hs_state l s
     = Raised (RuntimeError "List size must be 4") s /\
   RangerActuatorState.set_actuator_ls_state l s
     = Raised (RuntimeError "List size must be 4") s) /\
  (length l = 4 ->
   Forall (fun o => is_Some (RangerActuatorState.cast_hs s o)) l ->
   raised (RangerActuatorState.set_actuator_hs_state l s) = false) /\
  (length l = 4 ->
   Forall (fun o => is_Some (RangerActuatorState.cast_ls s o)) l ->
   raised (RangerActuatorState.set_actuator_ls_state l s) = false).
Proof.
  split; [| split].
  - intros H. split; [apply set_hs_wrong_length | apply set_ls_wrong_length]; exact H.
  - intros Hlen Hall. rewrite set_hs_right_length by exact Hlen.
    apply (loop_accepts RangerActuatorState.actuator_hs_state _ _
             hs_arr_store hs_cast_stable).
    intros k Hk. destruct (lookup_lt_is_Some_2 l k ltac:(lia)) as [o Ho].
    exists o. split; [exact Ho |]. exact (proj1 (Forall_lookup _ l) Hall k o Ho).
  - intros Hlen Hall. rewrite set_ls_right_length by exact Hlen.
    apply (loop_accepts RangerActuatorState.actuator_ls_state _ _
             ls_arr_store ls_cast_stable).
    intros k Hk. destruct (lookup_lt_is_Some_2 l k ltac:(lia)) as [o Ho].
    exists o. split; [exact Ho |]. exact (proj1 (Forall_lookup _ l) Hall k o Ho).
Qed.

Lemma actuator_setters_check_length_witness :
  let s := RangerActuatorState.init (M := int_messages) in
  let short := [PyActuatorHS (M := int_messages) 1%Z; PyActuatorHS (M := int_messages) 2%Z;
                PyActuatorHS (M := int_messages) 3%Z] in
  let full := short ++ [PyActuatorHSSlot 0] in
  (length short <> 4 /\ length full = 4 /\
   Forall (fun o => is_Some (RangerActuatorState.cast_hs s o)) full) /\
  (RangerActuatorState.set_actuator_hs_state short s
     = Raised (RuntimeError "List size must be 4") s /\
   raised (RangerActuatorState.set_actuator_hs_state full s) = false).
Proof.
  cbn zeta.
  pose (s := RangerActuatorState.init (M := int_messages)).
  pose (short := [PyActuatorHS (M := int_messages) 1%Z;
                  PyActuatorHS (M := int_messages) 2%Z;
                  PyActuatorHS (M := int_messages) 3%Z]).
  assert (length short <> 4) as H1 by (cbn; lia).
  assert (length (short ++ [PyActuatorHSSlot 0]) = 4) as H2 by reflexivity.
  assert (Forall (fun o => is_Some (RangerActuatorState.cast_hs s o))
            (short ++ [PyActuatorHSSlot 0])) as H3
    by (repeat constructor; eexists; reflexivity).
  split; [split; [exact H1 | split; [exact H2 | exact H3]] |].
  split.
  - exact (proj1 (proj1 (actuator_setters_check_length s short) H1)).
  - exact (proj1 (proj2 (actuator_setters_check_length s
                           (short ++ [PyActuatorHSSlot 0]))) H2 H3).
Defined.

(** C2, as stated, fails: a list of 4 whose second item is an int makes the
    write raise a cast error after slot 0 has already been overwritten. *)
Lemma actuator_partial_write_counterexample :
  let s := RangerActuatorState.init (M := int_messages) in
  let l := [PyActuatorHS (M := int_messages) 7%Z; PyInt 5;
            PyActuatorHS (M := int_messages) 7%Z; PyActuatorHS (M := int_messages) 7%Z] in
  let r := RangerActuatorState.set_actuator_hs_state l s in
  raised r = true /\
  RangerActuatorState.actuator_hs_state s = [0%Z; 0%Z; 0%Z; 0%Z] /\
  RangerActuatorState.actuator_hs_state (final_state r) = [7%Z; 0%Z; 0%Z; 0%Z] /\
  RangerActuatorState.actuator_hs_state (final_state r)
    <> RangerActuatorState.actuator_hs_state s.
Proof. cbn zeta. repeat split. vm_compute. discriminate. Qed.

(** C2 (amended): a write to [actuator_hs_state] or [actuator_ls_state] that
    fails on the list length alters nothing; a write of a 4-element list
    that holds an item not convertible to the message type fails and leaves
    every slot from that item's position on, and the other array, unaltered.
    A write fails for no other reason. *)
Theorem actuator_failed_write_frame `{M : AgilexMessages}
    (s : RangerActuatorState.t) (l : list PyObject) :
  (length l <> 4 ->
   final_state (RangerActuatorState.set_actuator_hs_state l s) = s /\
   final_state (RangerActuatorState.set_actuator_ls_state l s) = s) /\
  (forall k o, length l = 4 -> l !! k = Some o ->
     RangerActuatorState.cast_hs s o = None ->
     let r := RangerActuatorState.set_actuator_hs_state l s in
     raised r = true /\
     (forall j, k <= j ->
        RangerActuatorState.actuator_hs_state (final_state r) !! j
        = RangerActuatorState.actuator_hs_state s !! j) /\
     RangerActuatorState.actuator_ls_state (final_state r)
     = RangerActuatorState.actuator_ls_state s) /\
  (forall k o, length l = 4 -> l !! k = Some o ->
     RangerActuatorState.cast_ls s o = None ->
     let r := RangerActuatorState.set_actuator_ls_state l s in
     raised r = true /\
     (forall j, k <= j ->
        RangerActuatorState.actuator_ls_state (final_state r) !! j
        = RangerActuatorState.actuator_ls_state s !! j) /\
     RangerActuatorState.actuator_hs_state (final_state r)
     = RangerActuatorState.actuator_hs_state s) /\
  (raised (RangerActuatorState.set_actuator_hs_state l s) = true ->
   length l <> 4 \/
   exists k o, l !! k = Some o /\ RangerActuatorState.cast_hs s o = None) /\
  (raised (RangerActuatorState.set_actuator_ls_state l s) = true ->
   length l <> 4 \/
   exists k o, l !! k = Some o /\ RangerActuatorState.cast_ls s o = None).
Proof.
  repeat apply conj.
  - intros H. rewrite set_hs_wrong_length, set_ls_wrong_length by exact H.
    split; reflexivity.
  - intros k o Hlen Hl Hc r.
    pose proof (lookup_lt_Some _ _ _ Hl) as Hk.
    pose proof (proj2 (set_hs_lengths l s)) as Hother.
    subst r. rewrite set_hs_right_length in * by exact Hlen.
    destruct (loop_stops RangerActuatorState.actuator_hs_state _ _
                hs_arr_store hs_cast_stable l 4 0 s k o ltac:(lia) Hl Hc)
      as [Hr Hj].
    split; [exact Hr | split; [exact Hj | exact Hother]].
  - intros k o Hlen Hl Hc r.
    pose proof (lookup_lt_Some _ _ _ Hl) as Hk.
    pose proof (proj2 (set_ls_lengths l s)) as Hother.
    subst r. rewrite set_ls_right_length in * by exact Hlen.
    destruct (loop_stops RangerActuatorState.actuator_ls_state _ _
                ls_arr_store ls_cast_stable l 4 0 s k o ltac:(lia) Hl Hc)
      as [Hr Hj].
    split; [exact Hr | split; [exact Hj | exact Hother]].
  - intros Hr. destruct (decide (length l = 4)) as [Hlen | Hlen]; [| left; exact Hlen].
    right. rewrite set_hs_right_length in Hr by exact Hlen.
    destruct (loop_raised RangerActuatorState.actuator_hs_state _ _
                hs_arr_store hs_cast_stable l 4 0 s Hr) as (k & Hk & [Hnone | Hbad]).
    + apply lookup_ge_None in Hnone. lia.
    + exists k. exact Hbad.
  - intros Hr. destruct (decide (length l = 4)) as [Hlen | Hlen]; [| left; exact Hlen].
    right. rewrite set_ls_right_length in Hr by exact Hlen.
    destruct (loop_raised RangerActuatorState.actuator_ls_state _ _
                ls_arr_store ls_cast_stable l 4 0 s Hr) as (k & Hk & [Hnone | Hbad]).
    + apply lookup_ge_None in Hnone. lia.
    + exists k. exact Hbad.
Qed.

Lemma actuator_failed_write_frame_witness :
  let s := RangerActuatorState.init (M := int_messages) in
  let l := [PyActuatorHS (M := int_messages) 7%Z; PyInt 5;
            PyActuatorHS (M := int_messages) 7%Z; PyActuatorHS (M := int_messages) 7%Z] in
  let r := RangerActuatorState.set_actuator_hs_state l s in
  (length l = 4 /\ l !! 1 = Some (PyInt 5) /\
   RangerActuatorState.cast_hs s (PyInt 5) = None) /\
  (raised r = true /\
   forall j, 1 <= j ->
     RangerActuatorState.actuator_hs_state (final_state r) !! j
     = RangerActuatorState.actuator_hs_state s !! j).
Proof.
  cbn zeta.
  pose (s := RangerActuatorState.init (M := int_messages)).
  pose (l := [PyActuatorHS (M := int_messages) 7%Z; PyInt 5;
              PyActuatorHS (M := int_messages) 7%Z;
              PyActuatorHS (M := int_messages) 7%Z]).
  assert (length l = 4) as H1 by reflexivity.
  assert (l !! 1 = Some (PyInt 5)) as H2 by reflexivity.
  assert (RangerActuatorState.cast_hs s (PyInt 5) = None) as H3 by reflexivity.
  split; [split; [exact H1 | split; [exact H2 | exact H3]] |].
  destruct (proj1 (proj2 (actuator_failed_write_frame s l)) 1 (PyInt 5) H1 H2 H3)
    as (Hr & Hj & _).
  split; [exact Hr | exact Hj].
Defined.

(** C4: reading [actuator_hs_state] or [actuator_ls_state] yields a list of
    exactly 4 elements, for a freshly constructed record and for any record
    with 4-slot arrays, after any sequence of property reads and writes on
    it, failed writes included. *)
Theorem actuator_getters_length `{M : AgilexMessages}
    (ops : list RangerActuatorState.Op) :
  (length (RangerActuatorState.get_actuator_hs_state
             (RangerActuatorState.run ops RangerActuatorState.init)) = 4 /\
   length (RangerActuatorState.get_actuator_ls_state
             (RangerActuatorState.run ops RangerActuatorState.init)) = 4) /\
  (forall s : RangerActuatorState.t,
     RangerActuatorState.well_formed s ->
     length (RangerActuatorState.get_actuator_hs_state
               (RangerActuatorState.run ops s)) = 4 /\
     length (RangerActuatorState.get_actuator_ls_state
               (RangerActuatorState.run ops s)) = 4).
Proof.
  assert (forall s : RangerActuatorState.t,
            RangerActuatorState.well_formed s ->
            length (RangerActuatorState.get_actuator_hs_state
                      (RangerActuatorState.run ops s)) = 4 /\
            length (RangerActuatorState.get_actuator_ls_state
                      (RangerActuatorState.run ops s)) = 4) as Hany.
  { intros s Hs. destruct (run_well_formed ops s Hs) as [Hhs Hls].
    destruct (getters_length (RangerActuatorState.run ops s)) as [E1 E2].
    rewrite E1, E2. split; assumption. }
  split; [apply Hany, init_well_formed | exact Hany].
Qed.

Lemma actuator_getters_length_witness :
  let s := RangerActuatorState.mk (M := int_messages) (Chrono.mk_time_point 5)
             1%Z 2%Z [10%Z; 11%Z; 12%Z; 13%Z] [20%Z; 21%Z; 22%Z; 23%Z] in
  let ops := [RangerActuatorState.WriteActuatorHS
                [PyActuatorHSSlot 3; PyActuatorHSSlot 0; PyNone; PyNone];
              RangerActuatorState.WriteActuatorLS [PyActuatorLS (M := int_messages) 9%Z];
              RangerActuatorState.WriteTimeStamp 12] in
  RangerActuatorState.well_formed s /\
  length (RangerActuatorState.get_actuator_hs_state
            (RangerActuatorState.run ops s)) = 4 /\
  length (RangerActuatorState.get_actuator_ls_state
            (RangerActuatorState.run ops s)) = 4.
Proof.
  cbn zeta.
  assert (RangerActuatorState.well_formed
            (RangerActuatorState.mk (M := int_messages) (Chrono.mk_time_point 5)
               1%Z 2%Z [10%Z; 11%Z; 12%Z; 13%Z] [20%Z; 21%Z; 22%Z; 23%Z])) as H
    by (split; reflexivity).
  split; [exact H |].
  exact (proj2 (actuator_getters_length
                  [RangerActuatorState.WriteActuatorHS
                     [PyActuatorHSSlot 3; PyActuatorHSSlot 0; PyNone; PyNone];
                   RangerActuatorState.WriteActuatorLS
                     [PyActuatorLS (M := int_messages) 9%Z];
                   RangerActuatorState.WriteTimeStamp 12]) _ H).
Defined.

(** ** Defaults of the RangerRobot methods *)

Section ArgumentFacts.
Context {M : AgilexMessages}.

(** Positional arguments, one per parameter, are passed on as they are. *)
Lemma load_args_positional (spec : list arg_record) (args : list PyObject) :
  length args = length spec -> load_args spec args [] = Some args.
Proof.
  revert args. induction spec as [| a spec IH]; intros [| v args] Hlen;
    try discriminate; [reflexivity |].
  cbn. rewrite IH by (cbn in Hlen; lia). reflexivity.
Qed.

(** A trailing parameter with a default may be left out: the default takes
    its place in the vector. *)
Lemma load_args_default_last (spec : list arg_record) name d (args : list PyObject) :
  length args = length spec ->
  load_args (spec ++ [py_arg_v name d]) args [] = Some (args ++ [d]).
Proof.
  revert args. induction spec as [| a spec IH]; intros [| v args] Hlen;
    try discriminate; [reflexivity |].
  cbn. rewrite IH by (cbn in Hlen; lia). reflexivity.
Qed.

Lemma call_omit_last_default {R : Type} (impl : list PyObject -> R)
    (spec : list arg_record) name d (args : list PyObject) :
  length args = length spec ->
  call (spec ++ [py_arg_v name d]) impl args []
  = call (spec ++ [py_arg_v name d]) impl (args ++ [d]) [].
Proof.
  intros Hlen. unfold call.
  rewrite load_args_default_last by exact Hlen.
  rewrite load_args_positional by (rewrite !length_app, Hlen; reflexivity).
  reflexivity.
Qed.

End ArgumentFacts.

(** C7: the optional arguments carry the specified defaults: [is_mini_v1]
    defaults to false, [timeout_sec] to 3 and [angular_vel] to 0.0, so a call
    that omits one of them reaches the C++ function with the same argument
    vector as a call that passes the default, by position or by keyword. *)
Theorem binding_defaults `{M : AgilexMessages} {R : Type}
    (impl : list PyObject -> R) (linear_vel steer_angle : PyObject) :
  (call RangerRobot_init_args impl [] [] = Some (impl [PyBool false]) /\
   call RangerRobot_init_args impl [] []
     = call RangerRobot_init_args impl [PyBool false] [] /\
   call RangerRobot_init_args impl [] []
     = call RangerRobot_init_args impl [] [("is_mini_v1", PyBool false)]) /\
  (call request_version_args impl [] [] = Some (impl [PyInt 3]) /\
   call request_version_args impl [] []
     = call request_version_args impl [PyInt 3] [] /\
   call request_version_args impl [] []
     = call request_version_args impl [] [("timeout_sec", PyInt 3)]) /\
  (call set_motion_command_args impl [linear_vel; steer_angle] []
     = Some (impl [linear_vel; steer_angle; PyFloat 0]) /\
   call set_motion_command_args impl [linear_vel; steer_angle] []
     = call set_motion_command_args impl [linear_vel; steer_angle; PyFloat 0] [] /\
   call set_motion_command_args impl [linear_vel; steer_angle] []
     = call set_motion_command_args impl [linear_vel; steer_angle]
         [("angular_vel", PyFloat 0)]).
Proof.
  split; [| split].
  - split; [reflexivity | split; [| reflexivity]].
    apply (call_omit_last_default impl [] "is_mini_v1" (PyBool false) []). reflexivity.
  - split; [reflexivity | split; [| reflexivity]].
    apply (call_omit_last_default impl [] "timeout_sec" (PyInt 3) []). reflexivity.
  - split; [reflexivity | split; [| reflexivity]].
    apply (call_omit_last_default impl [py_arg "linear_vel"; py_arg "steer_angle"]
             "angular_vel" (PyFloat 0) [linear_vel; steer_angle]).
    reflexivity.
Qed.

(** ** State Aggregator *)

Section AggregatorFacts.
Context {M : AgilexMessages}.
Import StateAggregator.

Lemma same_except_time_stamp_refl (a : t) : same_except_time_stamp a a.
Proof. unfold same_except_time_stamp. repeat split. Qed.

(** A second merge of the same message changes nothing but the timestamp it
    refreshes. *)
Lemma merge_again now1 now2 msg a :
  merge now2 msg (merge now1 msg a) = merge now2 msg a.
Proof.
  destruct msg as [m | m | m | m | wheel m | wheel m | m]; try reflexivity.
  - unfold merge. destruct (decide (wheel < RangerActuatorState.ACTUATOR_SLOTS));
      cbn; [| reflexivity].
    rewrite list_insert_insert_eq. reflexivity.
  - unfold merge. destruct (decide (wheel < RangerActuatorState.ACTUATOR_SLOTS));
      cbn; [| reflexivity].
    rewrite list_insert_insert_eq. reflexivity.
Qed.

(** The time at which a message is merged shows in the timestamps only. *)
Lemma merge_time_irrelevant now1 now2 msg a :
  same_except_time_stamp (merge now2 msg a) (merge now1 msg a).
Proof.
  destruct msg as [m | m | m | m | wheel m | wheel m | m];
    unfold merge; try (unfold same_except_time_stamp; cbn; repeat split; fail).
  - destruct (decide (wheel < RangerActuatorState.ACTUATOR_SLOTS));
      unfold same_except_time_stamp; cbn; repeat split.
  - destruct (decide (wheel < RangerActuatorState.ACTUATOR_SLOTS));
      unfold same_except_time_stamp; cbn; repeat split.
Qed.

End AggregatorFacts.

(** C6: for every aggregate state and every decoded message, merging the
    same message twice yields an aggregate identical to merging it once,
    except for the timestamp fields; with the same merge time the two are
    equal outright. *)
Theorem merge_idempotent `{M : AgilexMessages}
    (now1 now2 : Chrono.time_point) (msg : StateAggregator.TypedMessage)
    (a : StateAggregator.t) :
  StateAggregator.same_except_time_stamp
    (StateAggregator.merge now2 msg (StateAggregator.merge now1 msg a))
    (StateAggregator.merge now1 msg a) /\
  StateAggregator.merge now1 msg (StateAggregator.merge now1 msg a)
  = StateAggregator.merge now1 msg a.
Proof.
  split.
  - rewrite merge_again. apply merge_time_irrelevant.
  - apply merge_again.
Qed.

(** ** Command Dispatcher *)

Section DispatcherFacts.
Context {D : CommandDispatcher.Design}.
Import CommandDispatcher.

Lemma enable_commanded_mode_on d d' :
  enable_commanded_mode d = (inr tt, d') -> commanded_mode d' = true.
Proof.
  unfold enable_commanded_mode. destruct (commanded_mode d) eqn:E.
  - intros H. injection H as <-. exact E.
  - destruct (negb (accepting d)); [discriminate |].
    destruct (send (channel d) encode_enable); [| discriminate].
    intros H. injection H as <-. reflexivity.
Qed.

(** A second call sends nothing more. *)
Lemma enable_commanded_mode_once d d' :
  enable_commanded_mode d = (inr tt, d') -> enable_commanded_mode d' = (inr tt, d').
Proof.
  intros H. unfold enable_commanded_mode at 1.
  rewrite (enable_commanded_mode_on d d' H). reflexivity.
Qed.

Lemma enable_commanded_mode_accepting d d' :
  enable_commanded_mode d = (inr tt, d') -> accepting d' = accepting d.
Proof.
  unfold enable_commanded_mode. destruct (commanded_mode d).
  - intros H. injection H as <-. reflexivity.
  - destruct (negb (accepting d)); [discriminate |].
    destruct (send (channel d) encode_enable); [| discriminate].
    intros H. injection H as <-. reflexivity.
Qed.

(** A channel that takes all the frames is handed all of them, in order. *)
Lemma send_frames_accepted frames : forall d c',
  channel_after (channel d) frames = Some c' ->
  send_frames frames d
  = (inr tt, mk (commanded_mode d) (accepting d) c' (handed d ++ frames)).
Proof.
  induction frames as [| f frames IH]; intros d c' H; cbn in *.
  - injection H as <-. rewrite app_nil_r. destruct d. reflexivity.
  - destruct (send (channel d) f) as [c |]; [| discriminate].
    rewrite (IH (mk (commanded_mode d) (accepting d) c (handed d ++ [f])) c' H).
    cbn. rewrite <- app_assoc. reflexivity.
Qed.

(** A channel that fails on one of the frames surfaces the channel error;
    the dispatcher's flags stay and only frames of the command were handed
    over. *)
Lemma send_frames_refused frames : forall d,
  channel_after (channel d) frames = None ->
  exists d', send_frames frames d = (inl ChannelError, d') /\
             commanded_mode d' = commanded_mode d /\ accepting d' = accepting d /\
             exists sent, handed d' = handed d ++ sent /\
                          length sent < length frames /\ sent = take (length sent) frames.
Proof.
  induction frames as [| f frames IH]; intros d H; cbn in *; [discriminate |].
  destruct (send (channel d) f) as [c |].
  - destruct (IH (mk (commanded_mode d) (accepting d) c (handed d ++ [f])) H)
      as (d' & E & Ec & Ea & sent & Eh & Hlen & Hpre).
    exists d'. split; [exact E |]. split; [exact Ec |]. split; [exact Ea |].
    exists (f :: sent). cbn in Eh |- *. rewrite Eh, <- app_assoc.
    split; [reflexivity |]. split; [lia |]. rewrite <- Hpre. reflexivity.
  - exists d. split; [reflexivity |]. split; [reflexivity |]. split; [reflexivity |].
    exists []. rewrite app_nil_r. split; [reflexivity |]. split; [cbn; lia | reflexivity].
Qed.

End DispatcherFacts.

(** C5, as stated, fails: after [enable_commanded_mode] has succeeded on a
    channel that then fails, the in-range call (1.0, 0.2, 0.0) surfaces a
    channel error; and once disconnect has started the same call is refused. *)
Lemma set_motion_command_counterexample :
  let d0 := CommandDispatcher.mk (D := sample_design) false true 1 [] in
  let d1 := CommandDispatcher.mk (D := sample_design) true true 0 [None] in
  let d2 := CommandDispatcher.mk (D := sample_design) true true 5 [None] in
  (CommandDispatcher.within (@CommandDispatcher.linear_vel_min sample_design)
     (@CommandDispatcher.linear_vel_max sample_design) 1 = true /\
   CommandDispatcher.within (@CommandDispatcher.steer_angle_min sample_design)
     (@CommandDispatcher.steer_angle_max sample_design) 0.2 = true /\
   CommandDispatcher.within (@CommandDispatcher.angular_vel_min sample_design)
     (@CommandDispatcher.angular_vel_max sample_design) 0 = true) /\
  CommandDispatcher.enable_commanded_mode d0 = (inr tt, d1) /\
  CommandDispatcher.set_motion_command 1 0.2 0 d1
    = (inl CommandDispatcher.ChannelError, d1) /\
  CommandDispatcher.set_motion_command 1 0.2 0 (CommandDispatcher.disconnect d2)
    = (inl CommandDispatcher.ConnectionClosed, CommandDispatcher.disconnect d2).
Proof. cbn zeta. repeat split. Qed.

(** C5 (amended): a call of [set_motion_command] whose steer angle lies
    outside the limits yields the invalid-argument condition and leaves the
    dispatcher, and with it the frames handed to the transport, as it was,
    whatever the state of the session.  A call with all three arguments in
    range, made after [enable_commanded_mode] on a session that still accepts
    sends, does not fail and hands exactly the encoded frames to the
    transport when the channel takes them all; when the channel fails on one
    of them the call surfaces a channel error; and on a session whose
    disconnect has started the call is refused and hands over nothing. *)
Theorem set_motion_command_validates `{D : CommandDispatcher.Design}
    (linear_vel steer_angle angular_vel : float) (d : CommandDispatcher.t) :
  (CommandDispatcher.within CommandDispatcher.steer_angle_min
     CommandDispatcher.steer_angle_max steer_angle = false ->
   CommandDispatcher.set_motion_command linear_vel steer_angle angular_vel d
   = (inl CommandDispatcher.InvalidArgument, d)) /\
  (CommandDispatcher.within CommandDispatcher.linear_vel_min
     CommandDispatcher.linear_vel_max linear_vel = true ->
   CommandDispatcher.within CommandDispatcher.steer_angle_min
     CommandDispatcher.steer_angle_max steer_angle = true ->
   CommandDispatcher.within CommandDispatcher.angular_vel_min
     CommandDispatcher.angular_vel_max angular_vel = true ->
   let frames := CommandDispatcher.encode_motion linear_vel steer_angle angular_vel in
   (forall d0, CommandDispatcher.enable_commanded_mode d0 = (inr tt, d) ->
      CommandDispatcher.accepting d = true ->
      (forall c', CommandDispatcher.channel_after (CommandDispatcher.channel d) frames
                  = Some c' ->
         CommandDispatcher.set_motion_command linear_vel steer_angle angular_vel d
         = (inr tt, CommandDispatcher.mk true true c'
                      (CommandDispatcher.handed d ++ frames))) /\
      (CommandDispatcher.channel_after (CommandDispatcher.channel d) frames = None ->
       exists d', CommandDispatcher.set_motion_command linear_vel steer_angle
                    angular_vel d = (inl CommandDispatcher.ChannelError, d') /\
                  exists sent, CommandDispatcher.handed d'
                               = CommandDispatcher.handed d ++ sent /\
                               length sent < length frames /\
                               sent = take (length sent) frames)) /\
   (CommandDispatcher.accepting d = false ->
    CommandDispatcher.set_motion_command linear_vel steer_angle angular_vel d
    = (inl CommandDispatcher.ConnectionClosed, d))).
Proof.
  split.
  - intros Hout. unfold CommandDispatcher.set_motion_command.
    rewrite Hout, andb_false_r. reflexivity.
  - intros Hl Hs Ha frames. split.
    + intros d0 Hen Hacc.
      pose proof (enable_commanded_mode_on d0 d Hen) as Hon.
      unfold CommandDispatcher.set_motion_command.
      rewrite Hl, Hs, Ha, Hacc, Hon, andb_false_r. cbn [andb negb]. split.
      * intros c' Hc. fold frames. rewrite (send_frames_accepted frames d c' Hc).
        rewrite Hon, Hacc. reflexivity.
      * intros Hc. fold frames.
        destruct (send_frames_refused frames d Hc)
          as (d' & E & _ & _ & sent & Eh & Hlen & Hpre).
        exists d'. split; [exact E |]. exists sent. auto.
    + intros Hacc. unfold CommandDispatcher.set_motion_command.
      rewrite Hl, Hs, Ha, Hacc. reflexivity.
Qed.

Lemma set_motion_command_validates_witness :
  let d0 := CommandDispatcher.mk (D := sample_design) false true 3 [] in
  let d := CommandDispatcher.mk (D := sample_design) true true 2 [None] in
  (CommandDispatcher.within (@CommandDispatcher.steer_angle_min sample_design)
     (@CommandDispatcher.steer_angle_max sample_design) 99 = false /\
   CommandDispatcher.within (@CommandDispatcher.linear_vel_min sample_design)
     (@CommandDispatcher.linear_vel_max sample_design) 1 = true /\
   CommandDispatcher.within (@CommandDispatcher.steer_angle_min sample_design)
     (@CommandDispatcher.steer_angle_max sample_design) 0.2 = true /\
   CommandDispatcher.within (@CommandDispatcher.angular_vel_min sample_design)
     (@CommandDispatcher.angular_vel_max sample_design) 0 = true /\
   CommandDispatcher.enable_commanded_mode d0 = (inr tt, d) /\
   CommandDispatcher.accepting d = true /\
   CommandDispatcher.channel_after (CommandDispatcher.channel d)
     (CommandDispatcher.encode_motion 1 0.2 0) = Some 1) /\
  (CommandDispatcher.set_motion_command 1 99 0 d
   = (inl CommandDispatcher.InvalidArgument, d) /\
   CommandDispatcher.set_motion_command 1 0.2 0 d
   = (inr tt, CommandDispatcher.mk (D := sample_design) true true 1
                [None; Some (1%float, 0.2%float, 0%float)])).
Proof.
  cbn zeta.
  split; [repeat split |].
  split.
  - exact (proj1 (set_motion_command_validates (D := sample_design) 1 99 0
                    (CommandDispatcher.mk (D := sample_design) true true 2 [None]))
             eq_refl).
  - exact (proj1 (proj1 (proj2 (set_motion_command_validates (D := sample_design)
                                  1 0.2 0
                                  (CommandDispatcher.mk (D := sample_design)
                                     true true 2 [None]))
                           eq_refl eq_refl eq_refl)
                    (CommandDispatcher.mk (D := sample_design) false true 3 [])
                    eq_refl eq_refl)
             1 eq_refl).
Defined.

(** * Further properties of the bindings *)

(** ** What the conversion loop stores *)

Lemma for_loop_split {St : Type} (body : nat -> Stmt St) a b from s :
  for_loop (a + b) from body s =
  match for_loop a from body s with
  | Returned s' => for_loop b (from + a) body s'
  | Raised e s' => Raised e s'
  end.
Proof.
  revert from s. induction a as [| a IH]; intros from s.
  - cbn. rewrite Nat.add_0_r. reflexivity.
  - cbn [Nat.add for_loop]. unfold seq_stmt.
    destruct (body from s) as [s1 | e s1]; [| reflexivity].
    rewrite IH. replace (S from + a) with (from + S a) by lia. reflexivity.
Qed.

Section SetterLoopExact.
Context {M : AgilexMessages} {St T : Type}.
Variable arr : St -> list T.
Variable cast : St -> PyObject -> option T.
Variable store : nat -> T -> St -> St.
Variable own : T -> PyObject.
Variable slot : nat -> PyObject.
Hypothesis arr_store : forall i m s, arr (store i m s) = <[i := m]> (arr s).
Hypothesis store_id : forall i m s, arr s !! i = Some m -> store i m s = s.
Hypothesis own_cast : forall s m, cast s (own m) = Some m.
Hypothesis slot_cast : forall s i, cast s (slot i) = arr s !! i.
Variable l : list PyObject.

Local Abbreviation loop count from := (for_loop count from (assign_slot cast store l)).

(** Items that own their message are stored one after the other. *)
Lemma loop_owned ms : forall from s,
  from + length ms <= length (arr s) ->
  (forall i m, ms !! i = Some m -> l !! (from + i) = Some (own m)) ->
  exists s', loop (length ms) from s = Returned s' /\
             arr s' = take from (arr s) ++ ms ++ drop (from + length ms) (arr s).
Proof.
  induction ms as [| m ms IH]; intros from s Hlen Hl.
  - exists s. split; [reflexivity |].
    cbn. rewrite Nat.add_0_r, take_drop. reflexivity.
  - cbn [length]. rewrite (loop_step cast store l).
    pose proof (Hl 0 m eq_refl) as H0. rewrite Nat.add_0_r in H0.
    rewrite H0, own_cast.
    destruct (IH (S from) (store from m s)) as (s' & Hrun & Harr).
    + rewrite arr_store, length_insert. cbn in Hlen. lia.
    + intros i m' Hi. replace (S from + i) with (from + S i) by lia.
      apply Hl. exact Hi.
    + exists s'. split; [exact Hrun |].
      rewrite Harr, arr_store.
      rewrite (take_S_r _ from m)
        by (apply list_lookup_insert_eq; cbn in Hlen; lia).
      rewrite take_insert_ge by lia. rewrite drop_insert_lt by lia.
      rewrite <- app_assoc. cbn [length].
      replace (S from + length ms) with (from + S (length ms)) by lia.
      reflexivity.
Qed.

(** Wrappers of the record's own slots, each at its own position, store
    into every slot what it already holds. *)
Lemma loop_own_slots count : forall from s,
  from + count <= length (arr s) ->
  (forall i, from <= i < from + count -> l !! i = Some (slot i)) ->
  loop count from s = Returned s.
Proof.
  induction count as [| count IH]; intros from s Hlen Hl.
  - reflexivity.
  - rewrite (loop_step cast store l), (Hl from) by lia. rewrite slot_cast.
    destruct (lookup_lt_is_Some_2 (arr s) from ltac:(lia)) as [m Hm].
    rewrite Hm, (store_id from m s Hm).
    apply IH; [lia |]. intros i Hi. apply Hl. lia.
Qed.

End SetterLoopExact.

Section ActuatorExact.
Context {M : AgilexMessages}.
Import RangerActuatorState.

Lemma hs_store_id i m s : actuator_hs_state s !! i = Some m -> store_hs i m s = s.
Proof.
  intros H. destruct s as [ts ma msp hs ls]. unfold store_hs. cbn in *.
  rewrite list_insert_id by exact H. reflexivity.
Qed.

Lemma ls_store_id i m s : actuator_ls_state s !! i = Some m -> store_ls i m s = s.
Proof.
  intros H. destruct s as [ts ma msp hs ls]. unfold store_ls. cbn in *.
  rewrite list_insert_id by exact H. reflexivity.
Qed.

(** Neither setter touches a field other than its own array. *)
Lemma set_hs_frame l s :
  let s' := final_state (set_actuator_hs_state l s) in
  time_stamp s' = time_stamp s /\ motor_angles s' = motor_angles s /\
  motor_speeds s' = motor_speeds s /\ actuator_ls_state s' = actuator_ls_state s.
Proof.
  cbn zeta. destruct (decide (length l = 4)) as [H | H].
  - rewrite set_hs_right_length by exact H.
    apply (loop_preserves cast_hs store_hs l
             (fun s' => time_stamp s' = time_stamp s /\ motor_angles s' = motor_angles s /\
                        motor_speeds s' = motor_speeds s /\
                        actuator_ls_state s' = actuator_ls_state s));
      [intros i m s' Hs'; exact Hs' | repeat split].
  - rewrite set_hs_wrong_length by exact H. repeat split.
Qed.

Lemma set_ls_frame l s :
  let s' := final_state (set_actuator_ls_state l s) in
  time_stamp s' = time_stamp s /\ motor_angles s' = motor_angles s /\
  motor_speeds s' = motor_speeds s /\ actuator_hs_state s' = actuator_hs_state s.
Proof.
  cbn zeta. destruct (decide (length l = 4)) as [H | H].
  - rewrite set_ls_right_length by exact H.
    apply (loop_preserves cast_ls store_ls l
             (fun s' => time_stamp s' = time_stamp s /\ motor_angles s' = motor_angles s /\
                        motor_speeds s' = motor_speeds s /\
                        actuator_hs_state s' = actuator_hs_state s));
      [intros i m s' Hs'; exact Hs' | repeat split].
  - rewrite set_ls_wrong_length by exact H. repeat split.
Qed.

(** A record is determined by its five fields. *)
Lemma actuator_state_eq (s s' : t) :
  time_stamp s' = time_stamp s -> motor_angles s' = motor_angles s ->
  motor_speeds s' = motor_speeds s ->
  actuator_hs_state s' = actuator_hs_state s ->
  actuator_ls_state s' = actuator_ls_state s -> s' = s.
Proof.
  destruct s, s'. cbn. intros -> -> -> -> ->. reflexivity.
Qed.

(** The run of the [actuator_hs_state] loop over an owned prefix [pre] of the
    list, in terms of the record. *)
Lemma hs_loop_owned l pre s :
  length pre <= length (actuator_hs_state s) ->
  (forall i m, pre !! i = Some m -> l !! i = Some (PyActuatorHS m)) ->
  for_loop (length pre) 0 (assign_hs l) s
  = Returned (mk (time_stamp s) (motor_angles s) (motor_speeds s)
                (pre ++ drop (length pre) (actuator_hs_state s))
                (actuator_ls_state s)).
Proof.
  intros Hlen Hl.
  destruct (loop_owned actuator_hs_state cast_hs store_hs PyActuatorHS
              hs_arr_store (fun s m => eq_refl) l pre 0 s Hlen Hl)
    as (s' & Hrun & Harr).
  transitivity (Returned s'); [exact Hrun |]. f_equal.
  pose proof (loop_preserves cast_hs store_hs l
                (fun s' => time_stamp s' = time_stamp s /\
                           motor_angles s' = motor_angles s /\
                           motor_speeds s' = motor_speeds s /\
                           actuator_ls_state s' = actuator_ls_state s)
                ltac:(intros i m s0 Hs0; exact Hs0) (length pre) 0 s
                ltac:(repeat split)) as Hframe.
  rewrite Hrun in Hframe. cbn [final_state] in Hframe.
  destruct Hframe as (E1 & E2 & E3 & E4).
  apply actuator_state_eq; cbn; assumption.
Qed.

Lemma ls_loop_owned l pre s :
  length pre <= length (actuator_ls_state s) ->
  (forall i m, pre !! i = Some m -> l !! i = Some (PyActuatorLS m)) ->
  for_loop (length pre) 0 (assign_ls l) s
  = Returned (mk (time_stamp s) (motor_angles s) (motor_speeds s)
                (actuator_hs_state s)
                (pre ++ drop (length pre) (actuator_ls_state s))).
Proof.
  intros Hlen Hl.
  destruct (loop_owned actuator_ls_state cast_ls store_ls PyActuatorLS
              ls_arr_store (fun s m => eq_refl) l pre 0 s Hlen Hl)
    as (s' & Hrun & Harr).
  transitivity (Returned s'); [exact Hrun |]. f_equal.
  pose proof (loop_preserves cast_ls store_ls l
                (fun s' => time_stamp s' = time_stamp s /\
                           motor_angles s' = motor_angles s /\
                           motor_speeds s' = motor_speeds s /\
                           actuator_hs_state s' = actuator_hs_state s)
                ltac:(intros i m s0 Hs0; exact Hs0) (length pre) 0 s
                ltac:(repeat split)) as Hframe.
  rewrite Hrun in Hframe. cbn [final_state] in Hframe.
  destruct Hframe as (E1 & E2 & E3 & E4).
  apply actuator_state_eq; cbn; assumption.
Qed.

Lemma owned_prefix_lookup {T : Type} (own : T -> PyObject) (pre : list T) rest i m :
  pre !! i = Some m -> ((own <$> pre) ++ rest) !! i = Some (own m).
Proof.
  intros H. apply lookup_app_l_Some. rewrite list_lookup_fmap, H. reflexivity.
Qed.

End ActuatorExact.

(** X1: on a record with 4-slot arrays, writing a list of 4 messages to
    [actuator_hs_state] (or [actuator_ls_state]) succeeds, replaces exactly
    that array by the messages, in order, and leaves every other field as it
    was; reading the property afterwards shows those 4 messages. *)
Theorem actuator_write_then_read `{M : AgilexMessages}
    (s : RangerActuatorState.t) (hs : list ActuatorHSStateMessage)
    (ls : list ActuatorLSStateMessage) :
  RangerActuatorState.well_formed s -> length hs = 4 -> length ls = 4 ->
  let s1 := RangerActuatorState.mk (RangerActuatorState.time_stamp s)
              (RangerActuatorState.motor_angles s) (RangerActuatorState.motor_speeds s)
              hs (RangerActuatorState.actuator_ls_state s) in
  let s2 := RangerActuatorState.mk (RangerActuatorState.time_stamp s)
              (RangerActuatorState.motor_angles s) (RangerActuatorState.motor_speeds s)
              (RangerActuatorState.actuator_hs_state s) ls in
  (RangerActuatorState.set_actuator_hs_state (PyActuatorHS <$> hs) s = Returned s1 /\
   RangerActuatorState.cast_hs s1 <$> RangerActuatorState.get_actuator_hs_state s1
   = Some <$> hs) /\
  (RangerActuatorState.set_actuator_ls_state (PyActuatorLS <$> ls) s = Returned s2 /\
   RangerActuatorState.cast_ls s2 <$> RangerActuatorState.get_actuator_ls_state s2
   = Some <$> ls).
Proof.
  intros [Whs Wls] Hhs Hls s1 s2. unfold RangerActuatorState.ACTUATOR_SLOTS in *.
  split; split.
  - rewrite set_hs_right_length by (rewrite length_fmap; exact Hhs).
    rewrite <- Hhs at 1. rewrite (hs_loop_owned _ hs s).
    + rewrite drop_ge, app_nil_r by lia. reflexivity.
    + lia.
    + intros i m Hi. rewrite list_lookup_fmap, Hi. reflexivity.
  - apply (get_hs_shows_slots s1).
  - rewrite set_ls_right_length by (rewrite length_fmap; exact Hls).
    rewrite <- Hls at 1. rewrite (ls_loop_owned _ ls s).
    + rewrite drop_ge, app_nil_r by lia. reflexivity.
    + lia.
    + intros i m Hi. rewrite list_lookup_fmap, Hi. reflexivity.
  - apply (get_ls_shows_slots s2).
Qed.

Lemma actuator_write_then_read_witness :
  let s := RangerActuatorState.init (M := int_messages) in
  (RangerActuatorState.well_formed s /\
   length [1%Z; 2%Z; 3%Z; 4%Z] = 4 /\ length [5%Z; 6%Z; 7%Z; 8%Z] = 4) /\
  RangerActuatorState.actuator_hs_state
    (final_state (RangerActuatorState.set_actuator_hs_state
                    (PyActuatorHS (M := int_messages) <$> [1%Z; 2%Z; 3%Z; 4%Z]) s))
  = [1%Z; 2%Z; 3%Z; 4%Z].
Proof.
  cbn zeta.
  assert (RangerActuatorState.well_formed
            (RangerActuatorState.init (M := int_messages))) as H1
    by (split; reflexivity).
  split; [split; [exact H1 | split; reflexivity] |].
  rewrite (proj1 (proj1 (actuator_write_then_read (M := int_messages)
                           RangerActuatorState.init
                           [1%Z; 2%Z; 3%Z; 4%Z] [5%Z; 6%Z; 7%Z; 8%Z]
                           H1 eq_refl eq_refl))).
  reflexivity.
Defined.

(** X2: on a record with 4-slot arrays, writing back to [actuator_hs_state]
    (or [actuator_ls_state]) the very list its getter returned succeeds and
    leaves the record exactly as it was. *)
Theorem actuator_read_then_write `{M : AgilexMessages} (s : RangerActuatorState.t) :
  RangerActuatorState.well_formed s ->
  RangerActuatorState.set_actuator_hs_state
    (RangerActuatorState.get_actuator_hs_state s) s = Returned s /\
  RangerActuatorState.set_actuator_ls_state
    (RangerActuatorState.get_actuator_ls_state s) s = Returned s.
Proof.
  intros [Whs Wls]. unfold RangerActuatorState.ACTUATOR_SLOTS in *.
  destruct (getters_length s) as [Ghs Gls]. split.
  - rewrite set_hs_right_length by lia.
    apply (loop_own_slots RangerActuatorState.actuator_hs_state
             RangerActuatorState.cast_hs RangerActuatorState.store_hs
             PyActuatorHSSlot hs_store_id (fun s i => eq_refl)); [lia |].
    intros i Hi. unfold RangerActuatorState.get_actuator_hs_state.
    rewrite list_lookup_imap.
    destruct (lookup_lt_is_Some_2 (RangerActuatorState.actuator_hs_state s) i
                ltac:(lia)) as [m ->].
    reflexivity.
  - rewrite set_ls_right_length by lia.
    apply (loop_own_slots RangerActuatorState.actuator_ls_state
             RangerActuatorState.cast_ls RangerActuatorState.store_ls
             PyActuatorLSSlot ls_store_id (fun s i => eq_refl)); [lia |].
    intros i Hi. unfold RangerActuatorState.get_actuator_ls_state.
    rewrite list_lookup_imap.
    destruct (lookup_lt_is_Some_2 (RangerActuatorState.actuator_ls_state s) i
                ltac:(lia)) as [m ->].
    reflexivity.
Qed.

Lemma actuator_read_then_write_witness :
  let s := RangerActuatorState.mk (M := int_messages) (Chrono.mk_time_point 5)
             1%Z 2%Z [10%Z; 11%Z; 12%Z; 13%Z] [20%Z; 21%Z; 22%Z; 23%Z] in
  RangerActuatorState.well_formed s /\
  RangerActuatorState.set_actuator_ls_state
    (RangerActuatorState.get_actuator_ls_state s) s = Returned s.
Proof.
  cbn zeta.
  assert (RangerActuatorState.well_formed
            (RangerActuatorState.mk (M := int_messages) (Chrono.mk_time_point 5)
               1%Z 2%Z [10%Z; 11%Z; 12%Z; 13%Z] [20%Z; 21%Z; 22%Z; 23%Z])) as H
    by (split; reflexivity).
  split; [exact H |].
  exact (proj2 (actuator_read_then_write _ H)).
Defined.

(** X3: on a record with 4-slot arrays, a write of a 4-element list that
    starts with messages [pre] and whose next item cannot be converted
    raises (a TypeError when that item is [None], a cast error otherwise)
    and leaves the array holding [pre] in its first slots and the old
    messages in the remaining ones; nothing else changes.  The same holds
    for [actuator_ls_state]. *)
Theorem actuator_partial_write_exact `{M : AgilexMessages}
    (s : RangerActuatorState.t) (bad : PyObject) (rest : list PyObject) :
  RangerActuatorState.well_formed s ->
  (forall pre : list ActuatorHSStateMessage,
     length pre + S (length rest) = 4 ->
     RangerActuatorState.cast_hs s bad = None ->
     RangerActuatorState.set_actuator_hs_state
       ((PyActuatorHS <$> pre) ++ bad :: rest) s
     = Raised (cast_failure bad)
         (RangerActuatorState.mk (RangerActuatorState.time_stamp s)
            (RangerActuatorState.motor_angles s) (RangerActuatorState.motor_speeds s)
            (pre ++ drop (length pre) (RangerActuatorState.actuator_hs_state s))
            (RangerActuatorState.actuator_ls_state s))) /\
  (forall pre : list ActuatorLSStateMessage,
     length pre + S (length rest) = 4 ->
     RangerActuatorState.cast_ls s bad = None ->
     RangerActuatorState.set_actuator_ls_state
       ((PyActuatorLS <$> pre) ++ bad :: rest) s
     = Raised (cast_failure bad)
         (RangerActuatorState.mk (RangerActuatorState.time_stamp s)
            (RangerActuatorState.motor_angles s) (RangerActuatorState.motor_speeds s)
            (RangerActuatorState.actuator_hs_state s)
            (pre ++ drop (length pre) (RangerActuatorState.actuator_ls_state s)))).
Proof.
  intros [Whs Wls]. unfold RangerActuatorState.ACTUATOR_SLOTS in *. split.
  - intros pre Hlen Hbad.
    rewrite set_hs_right_length
      by (rewrite length_app, length_fmap; cbn [length]; exact Hlen).
    rewrite <- Hlen at 1. rewrite for_loop_split.
    rewrite (hs_loop_owned _ pre s);
      [| lia | intros i m Hi; apply owned_prefix_lookup; exact Hi].
    cbn [Nat.add].
    change (RangerActuatorState.assign_hs ((PyActuatorHS <$> pre) ++ bad :: rest))
      with (assign_slot RangerActuatorState.cast_hs RangerActuatorState.store_hs
              ((PyActuatorHS <$> pre) ++ bad :: rest)).
    rewrite loop_step.
    rewrite lookup_app_r by (rewrite length_fmap; lia).
    rewrite length_fmap, Nat.sub_diag. cbn [lookup list_lookup].
    match goal with
    | |- context [RangerActuatorState.cast_hs ?s1 bad] =>
        rewrite (proj2 (hs_cast_stable s s1 bad
                          ltac:(cbn; rewrite length_app, length_drop; lia)) Hbad)
    end.
    reflexivity.
  - intros pre Hlen Hbad.
    rewrite set_ls_right_length
      by (rewrite length_app, length_fmap; cbn [length]; exact Hlen).
    rewrite <- Hlen at 1. rewrite for_loop_split.
    rewrite (ls_loop_owned _ pre s);
      [| lia | intros i m Hi; apply owned_prefix_lookup; exact Hi].
    cbn [Nat.add].
    change (RangerActuatorState.assign_ls ((PyActuatorLS <$> pre) ++ bad :: rest))
      with (assign_slot RangerActuatorState.cast_ls RangerActuatorState.store_ls
              ((PyActuatorLS <$> pre) ++ bad :: rest)).
    rewrite loop_step.
    rewrite lookup_app_r by (rewrite length_fmap; lia).
    rewrite length_fmap, Nat.sub_diag. cbn [lookup list_lookup].
    match goal with
    | |- context [RangerActuatorState.cast_ls ?s1 bad] =>
        rewrite (proj2 (ls_cast_stable s s1 bad
                          ltac:(cbn; rewrite length_app, length_drop; lia)) Hbad)
    end.
    reflexivity.
Qed.

Lemma actuator_partial_write_exact_witness :
  let s := RangerActuatorState.mk (M := int_messages) (Chrono.mk_time_point 5)
             1%Z 2%Z [10%Z; 11%Z; 12%Z; 13%Z] [20%Z; 21%Z; 22%Z; 23%Z] in
  (RangerActuatorState.well_formed s /\
   length [7%Z; 8%Z] + S (length [PyStr (M := int_messages) "rpm"]) = 4 /\
   RangerActuatorState.cast_hs s PyNone = None) /\
  RangerActuatorState.set_actuator_hs_state
    ((PyActuatorHS (M := int_messages) <$> [7%Z; 8%Z]) ++ PyNone :: [PyStr "rpm"]) s
  = Raised TypeError
      (RangerActuatorState.mk (M := int_messages) (Chrono.mk_time_point 5)
         1%Z 2%Z [7%Z; 8%Z; 12%Z; 13%Z] [20%Z; 21%Z; 22%Z; 23%Z]).
Proof.
  cbn zeta.
  assert (RangerActuatorState.well_formed
            (RangerActuatorState.mk (M := int_messages) (Chrono.mk_time_point 5)
               1%Z 2%Z [10%Z; 11%Z; 12%Z; 13%Z] [20%Z; 21%Z; 22%Z; 23%Z])) as H
    by (split; reflexivity).
  split; [split; [exact H | split; reflexivity] |].
  exact (proj1 (actuator_partial_write_exact _ PyNone [PyStr "rpm"] H)
           [7%Z; 8%Z] eq_refl eq_refl).
Defined.

(** X4: the list the getter returns holds wrappers of the record's own
    slots, so writing it back with the items at positions i < j exchanged
    does not exchange the two messages: the write succeeds and both slots
    end up holding the message that was in slot j. *)
Theorem actuator_swap_through_wrappers `{M : AgilexMessages}
    (s : RangerActuatorState.t) (i j : nat) :
  RangerActuatorState.well_formed s -> i < j < 4 ->
  (forall m, RangerActuatorState.actuator_hs_state s !! j = Some m ->
     RangerActuatorState.set_actuator_hs_state
       (<[i := PyActuatorHSSlot j]>
          (<[j := PyActuatorHSSlot i]> (RangerActuatorState.get_actuator_hs_state s))) s
     = Returned (RangerActuatorState.store_hs i m s)) /\
  (forall m, RangerActuatorState.actuator_ls_state s !! j = Some m ->
     RangerActuatorState.set_actuator_ls_state
       (<[i := PyActuatorLSSlot j]>
          (<[j := PyActuatorLSSlot i]> (RangerActuatorState.get_actuator_ls_state s))) s
     = Returned (RangerActuatorState.store_ls i m s)).
Proof.
  intros [Whs Wls] Hij. destruct s as [ts ma msp hs ls]. cbn in Whs, Wls.
  destruct hs as [| h0 [| h1 [| h2 [| h3 [| h4 hs]]]]]; try discriminate.
  destruct ls as [| l0 [| l1 [| l2 [| l3 [| l4 ls]]]]]; try discriminate.
  destruct i as [| [| [| [| i]]]]; destruct j as [| [| [| [| j]]]]; try lia;
    (split; intros m Hm; cbn in Hm; injection Hm as <-; reflexivity).
Qed.

Lemma actuator_swap_through_wrappers_witness :
  let s := RangerActuatorState.mk (M := int_messages) (Chrono.mk_time_point 5)
             1%Z 2%Z [10%Z; 11%Z; 12%Z; 13%Z] [20%Z; 21%Z; 22%Z; 23%Z] in
  (RangerActuatorState.well_formed s /\ 0 < 1 < 4 /\
   RangerActuatorState.actuator_hs_state s !! 1 = Some 11%Z) /\
  RangerActuatorState.actuator_hs_state
    (final_state
       (RangerActuatorState.set_actuator_hs_state
          [PyActuatorHSSlot 1; PyActuatorHSSlot 0; PyActuatorHSSlot 2;
           PyActuatorHSSlot 3] s))
  = [11%Z; 11%Z; 12%Z; 13%Z].
Proof.
  cbn zeta.
  assert (RangerActuatorState.well_formed
            (RangerActuatorState.mk (M := int_messages) (Chrono.mk_time_point 5)
               1%Z 2%Z [10%Z; 11%Z; 12%Z; 13%Z] [20%Z; 21%Z; 22%Z; 23%Z])) as H
    by (split; reflexivity).
  assert (0 < 1 < 4) as Hij by lia.
  split; [split; [exact H | split; [exact Hij | reflexivity]] |].
  pose proof (proj1 (actuator_swap_through_wrappers _ 0 1 H Hij) 11%Z eq_refl) as E.
  cbn in E. cbn. rewrite E. reflexivity.
Defined.

Section ActuatorOps.
Context {M : AgilexMessages}.
Import RangerActuatorState.

(** Each operation changes at most the field it writes. *)
Lemma perform_frame op s :
  let s' := final_state (perform op s) in
  ((forall ms, op <> WriteTimeStamp ms) -> time_stamp s' = time_stamp s) /\
  ((forall v, op <> WriteMotorAngles v) -> motor_angles s' = motor_angles s) /\
  ((forall v, op <> WriteMotorSpeeds v) -> motor_speeds s' = motor_speeds s) /\
  ((forall l, op <> WriteActuatorHS l) -> actuator_hs_state s' = actuator_hs_state s) /\
  ((forall l, op <> WriteActuatorLS l) -> actuator_ls_state s' = actuator_ls_state s).
Proof.
  cbn zeta. destruct op as [name | ms | v | v | l | l]; cbn [perform].
  - repeat split.
  - unfold py_set_time_stamp, with_long_long.
    destruct (Chrono.in_int64 ms); repeat split; intros H;
      try reflexivity; exfalso; apply (H ms); reflexivity.
  - repeat split; intros H; try reflexivity. exfalso. apply (H v). reflexivity.
  - repeat split; intros H; try reflexivity. exfalso. apply (H v). reflexivity.
  - destruct (set_hs_frame l s) as (E1 & E2 & E3 & E4).
    repeat split; intros H; try assumption. exfalso. apply (H l). reflexivity.
  - destruct (set_ls_frame l s) as (E1 & E2 & E3 & E4).
    repeat split; intros H; try assumption. exfalso. apply (H l). reflexivity.
Qed.

Lemma run_cons op ops s : run (op :: ops) s = run ops (final_state (perform op s)).
Proof. reflexivity. Qed.

End ActuatorOps.

(** X5: over any sequence of property reads and writes on an actuator state
    record, failed writes included, a field changes only through writes of
    that very property: without a [time_stamp] write the timestamp stays,
    without an [actuator_hs_state] write the HS array stays, and likewise
    for [motor_angles], [motor_speeds] and [actuator_ls_state]. *)
Theorem actuator_fields_independent `{M : AgilexMessages}
    (ops : list RangerActuatorState.Op) (s : RangerActuatorState.t) :
  ((forall ms, RangerActuatorState.WriteTimeStamp ms ∉ ops) ->
   RangerActuatorState.time_stamp (RangerActuatorState.run ops s)
   = RangerActuatorState.time_stamp s) /\
  ((forall v, RangerActuatorState.WriteMotorAngles v ∉ ops) ->
   RangerActuatorState.motor_angles (RangerActuatorState.run ops s)
   = RangerActuatorState.motor_angles s) /\
  ((forall v, RangerActuatorState.WriteMotorSpeeds v ∉ ops) ->
   RangerActuatorState.motor_speeds (RangerActuatorState.run ops s)
   = RangerActuatorState.motor_speeds s) /\
  ((forall l, RangerActuatorState.WriteActuatorHS l ∉ ops) ->
   RangerActuatorState.actuator_hs_state (RangerActuatorState.run ops s)
   = RangerActuatorState.actuator_hs_state s) /\
  ((forall l, RangerActuatorState.WriteActuatorLS l ∉ ops) ->
   RangerActuatorState.actuator_ls_state (RangerActuatorState.run ops s)
   = RangerActuatorState.actuator_ls_state s).
Proof.
  revert s. induction ops as [| op ops IH]; intros s.
  - repeat split.
  - rewrite run_cons.
    destruct (IH (final_state (RangerActuatorState.perform op s)))
      as (I1 & I2 & I3 & I4 & I5).
    destruct (perform_frame op s) as (P1 & P2 & P3 & P4 & P5).
    repeat apply conj; intros H.
    + rewrite I1, P1; [reflexivity | |]; intros x;
        specialize (H x); apply not_elem_of_cons in H; [intros -> |]; tauto.
    + rewrite I2, P2; [reflexivity | |]; intros x;
        specialize (H x); apply not_elem_of_cons in H; [intros -> |]; tauto.
    + rewrite I3, P3; [reflexivity | |]; intros x;
        specialize (H x); apply not_elem_of_cons in H; [intros -> |]; tauto.
    + rewrite I4, P4; [reflexivity | |]; intros x;
        specialize (H x); apply not_elem_of_cons in H; [intros -> |]; tauto.
    + rewrite I5, P5; [reflexivity | |]; intros x;
        specialize (H x); apply not_elem_of_cons in H; [intros -> |]; tauto.
Qed.

Lemma actuator_fields_independent_witness :
  let s := RangerActuatorState.mk (M := int_messages) (Chrono.mk_time_point 5)
             1%Z 2%Z [10%Z; 11%Z; 12%Z; 13%Z] [20%Z; 21%Z; 22%Z; 23%Z] in
  let ops := [RangerActuatorState.WriteActuatorHS
                [PyActuatorHS (M := int_messages) 7%Z; PyNone; PyNone; PyNone];
              RangerActuatorState.WriteMotorAngles (M := int_messages) 9%Z] in
  (forall ms, RangerActuatorState.WriteTimeStamp ms ∉ ops) /\
  RangerActuatorState.time_stamp (RangerActuatorState.run ops s)
  = Chrono.mk_time_point 5.
Proof.
  cbn zeta.
  assert (forall ms,
            RangerActuatorState.WriteTimeStamp ms ∉
              [RangerActuatorState.WriteActuatorHS
                 [PyActuatorHS (M := int_messages) 7%Z; PyNone; PyNone; PyNone];
               RangerActuatorState.WriteMotorAngles (M := int_messages) 9%Z]) as H.
  { intros ms Hin. apply elem_of_cons in Hin as [Hin | Hin]; [discriminate |].
    apply elem_of_cons in Hin as [Hin | Hin]; [discriminate |].
    apply elem_of_nil in Hin. exact Hin. }
  split; [exact H |].
  exact (proj1 (actuator_fields_independent _ _) H).
Defined.

(** ** Order and range of the timestamps *)

Module ChronoOrder.
Import Chrono ChronoFacts.
Local Open Scope Z_scope.

Lemma duration_cast_mono d1 d2 :
  d1 <= d2 -> duration_cast_milliseconds d1 <= duration_cast_milliseconds d2.
Proof.
  intros H. unfold duration_cast_milliseconds, ticks_per_ms.
  apply Z.quot_le_mono; lia.
Qed.

(** Two instants on the same side of the epoch and at least a millisecond
    apart read differently. *)
Lemma duration_cast_resolves d1 d2 :
  0 <= d1 \/ d2 <= 0 -> d1 + ticks_per_ms <= d2 ->
  duration_cast_milliseconds d1 < duration_cast_milliseconds d2.
Proof.
  intros Hside Hfar.
  pose proof (duration_cast_trunc d1) as [P1 N1].
  pose proof (duration_cast_trunc d2) as [P2 N2].
  cbn zeta in *. unfold ticks_per_ms in *.
  destruct Hside as [H | H].
  - specialize (P1 H). specialize (P2 ltac:(lia)). lia.
  - specialize (N2 H). specialize (N1 ltac:(lia)). lia.
Qed.

Lemma stored_in_range ms :
  - MS_LIMIT <= ms <= MS_LIMIT ->
  time_since_epoch (time_point_of_milliseconds ms) = ms * ticks_per_ms.
Proof.
  intros H. unfold time_point_of_milliseconds. cbn.
  apply wrap_int64_fits, ticks_fit_iff, H.
Qed.

End ChronoOrder.

(** X6: reading [time_stamp] never reverses the order of two stored
    instants, and two instants on the same side of the clock's epoch that
    are at least one millisecond apart read as different integers; this
    holds for each of the three aggregate records. *)
Theorem time_stamp_read_monotone `{M : AgilexMessages} :
  (forall s1 s2 : RangerCoreState.t,
     let d1 := Chrono.time_since_epoch (RangerCoreState.time_stamp s1) in
     let d2 := Chrono.time_since_epoch (RangerCoreState.time_stamp s2) in
     ((d1 <= d2)%Z ->
      (RangerCoreState.get_time_stamp s1 <= RangerCoreState.get_time_stamp s2)%Z) /\
     ((0 <= d1 \/ d2 <= 0)%Z -> (d1 + Chrono.ticks_per_ms <= d2)%Z ->
      (RangerCoreState.get_time_stamp s1 < RangerCoreState.get_time_stamp s2)%Z)) /\
  (forall s1 s2 : RangerActuatorState.t,
     let d1 := Chrono.time_since_epoch (RangerActuatorState.time_stamp s1) in
     let d2 := Chrono.time_since_epoch (RangerActuatorState.time_stamp s2) in
     ((d1 <= d2)%Z ->
      (RangerActuatorState.get_time_stamp s1
       <= RangerActuatorState.get_time_stamp s2)%Z) /\
     ((0 <= d1 \/ d2 <= 0)%Z -> (d1 + Chrono.ticks_per_ms <= d2)%Z ->
      (RangerActuatorState.get_time_stamp s1
       < RangerActuatorState.get_time_stamp s2)%Z)) /\
  (forall s1 s2 : RangerCommonSensorState.t,
     let d1 := Chrono.time_since_epoch (RangerCommonSensorState.time_stamp s1) in
     let d2 := Chrono.time_since_epoch (RangerCommonSensorState.time_stamp s2) in
     ((d1 <= d2)%Z ->
      (RangerCommonSensorState.get_time_stamp s1
       <= RangerCommonSensorState.get_time_stamp s2)%Z) /\
     ((0 <= d1 \/ d2 <= 0)%Z -> (d1 + Chrono.ticks_per_ms <= d2)%Z ->
      (RangerCommonSensorState.get_time_stamp s1
       < RangerCommonSensorState.get_time_stamp s2)%Z)).
Proof.
  repeat apply conj; intros s1 s2 d1 d2; split;
    first [apply ChronoOrder.duration_cast_mono
          | apply ChronoOrder.duration_cast_resolves].
Qed.

Lemma time_stamp_read_monotone_witness :
  let at_ticks d := RangerCommonSensorState.mk (M := int_messages)
                      (Chrono.mk_time_point d) 0%Z in
  ((0 <= 41999999 \/ 42000000 <= 0)%Z /\
   (41999999 + Chrono.ticks_per_ms <= 42999999)%Z) /\
  (RangerCommonSensorState.get_time_stamp (at_ticks 41999999%Z)
   < RangerCommonSensorState.get_time_stamp (at_ticks 42999999%Z))%Z.
Proof.
  cbn zeta.
  assert (0 <= 41999999 \/ 42000000 <= 0)%Z as H1 by (left; lia).
  assert (41999999 + Chrono.ticks_per_ms <= 42999999)%Z as H2
    by (unfold Chrono.ticks_per_ms; lia).
  split; [split; [exact H1 | exact H2] |].
  apply (proj2 (proj2 (proj2 (time_stamp_read_monotone (M := int_messages)))
                  (RangerCommonSensorState.mk (M := int_messages)
                     (Chrono.mk_time_point 41999999) 0%Z)
                  (RangerCommonSensorState.mk (M := int_messages)
                     (Chrono.mk_time_point 42999999) 0%Z))).
  - left. cbn. lia.
  - cbn. unfold Chrono.ticks_per_ms. lia.
Defined.

(** X7: within -9223372036854 <= ms <= 9223372036854 the [time_stamp]
    setter stores exactly ms * 10^6 ticks, so the instants stored for two
    such values are ordered as the values are, and distinct values store
    distinct instants; this holds for each of the three aggregate records. *)
Theorem time_stamp_write_order `{M : AgilexMessages} (ms1 ms2 : Z) :
  (- Chrono.MS_LIMIT <= ms1 <= Chrono.MS_LIMIT)%Z ->
  (- Chrono.MS_LIMIT <= ms2 <= Chrono.MS_LIMIT)%Z ->
  (forall s1 s2 : RangerCoreState.t,
     let t1 := RangerCoreState.time_stamp (RangerCoreState.set_time_stamp ms1 s1) in
     let t2 := RangerCoreState.time_stamp (RangerCoreState.set_time_stamp ms2 s2) in
     Chrono.time_since_epoch t1 = (ms1 * 1000000)%Z /\
     ((Chrono.time_since_epoch t1 <= Chrono.time_since_epoch t2)%Z <-> (ms1 <= ms2)%Z) /\
     (t1 = t2 <-> ms1 = ms2)) /\
  (forall s1 s2 : RangerActuatorState.t,
     let t1 := RangerActuatorState.time_stamp
                 (RangerActuatorState.set_time_stamp ms1 s1) in
     let t2 := RangerActuatorState.time_stamp
                 (RangerActuatorState.set_time_stamp ms2 s2) in
     Chrono.time_since_epoch t1 = (ms1 * 1000000)%Z /\
     ((Chrono.time_since_epoch t1 <= Chrono.time_since_epoch t2)%Z <-> (ms1 <= ms2)%Z) /\
     (t1 = t2 <-> ms1 = ms2)) /\
  (forall s1 s2 : RangerCommonSensorState.t,
     let t1 := RangerCommonSensorState.time_stamp
                 (RangerCommonSensorState.set_time_stamp ms1 s1) in
     let t2 := RangerCommonSensorState.time_stamp
                 (RangerCommonSensorState.set_time_stamp ms2 s2) in
     Chrono.time_since_epoch t1 = (ms1 * 1000000)%Z /\
     ((Chrono.time_since_epoch t1 <= Chrono.time_since_epoch t2)%Z <-> (ms1 <= ms2)%Z) /\
     (t1 = t2 <-> ms1 = ms2)).
Proof.
  intros H1 H2.
  pose proof (ChronoOrder.stored_in_range ms1 H1) as E1.
  pose proof (ChronoOrder.stored_in_range ms2 H2) as E2.
  assert (Chrono.time_point_of_milliseconds ms1 = Chrono.time_point_of_milliseconds ms2
          <-> ms1 = ms2) as Einj.
  { split; [| intros ->; reflexivity]. intros E.
    apply (f_equal Chrono.time_since_epoch) in E. rewrite E1, E2 in E.
    unfold Chrono.ticks_per_ms in E. lia. }
  repeat apply conj; intros s1 s2 t1 t2; subst t1 t2; cbn;
    (split; [exact E1 | split; [| exact Einj]]);
    unfold Chrono.time_point_of_milliseconds in E1, E2; cbn in E1, E2;
    rewrite E1, E2; unfold Chrono.ticks_per_ms; lia.
Qed.

Lemma time_stamp_write_order_witness :
  ((- Chrono.MS_LIMIT <= -5 <= Chrono.MS_LIMIT)%Z /\
   (- Chrono.MS_LIMIT <= 3 <= Chrono.MS_LIMIT)%Z) /\
  Chrono.time_since_epoch
    (RangerCoreState.time_stamp
       (RangerCoreState.set_time_stamp (-5) (RangerCoreState.init (M := int_messages))))
  = (-5 * 1000000)%Z.
Proof.
  assert (- Chrono.MS_LIMIT <= -5 <= Chrono.MS_LIMIT)%Z as H1
    by (unfold Chrono.MS_LIMIT; lia).
  assert (- Chrono.MS_LIMIT <= 3 <= Chrono.MS_LIMIT)%Z as H2
    by (unfold Chrono.MS_LIMIT; lia).
  split; [split; [exact H1 | exact H2] |].
  exact (proj1 (proj1 (time_stamp_write_order (M := int_messages) (-5) 3 H1 H2)
                  RangerCoreState.init RangerCoreState.init)).
Defined.

(** X8: whatever instant a record holds in its 64-bit tick count, the value
    read from [time_stamp] lies between -9223372036854 and 9223372036854, so
    it is always a value that the setter accepts from Python without raising
    and stores without wrapping; this holds for each of the three records. *)
Theorem time_stamp_read_range `{M : AgilexMessages} :
  (forall s : RangerCoreState.t,
     (Chrono.INT64_MIN <= Chrono.time_since_epoch (RangerCoreState.time_stamp s)
      <= Chrono.INT64_MAX)%Z ->
     let ms := RangerCoreState.get_time_stamp s in
     (- Chrono.MS_LIMIT <= ms <= Chrono.MS_LIMIT)%Z /\
     raised (RangerCoreState.py_set_time_stamp ms s) = false /\
     Chrono.time_since_epoch
       (RangerCoreState.time_stamp (final_state (RangerCoreState.py_set_time_stamp ms s)))
     = (ms * 1000000)%Z) /\
  (forall s : RangerActuatorState.t,
     (Chrono.INT64_MIN <= Chrono.time_since_epoch (RangerActuatorState.time_stamp s)
      <= Chrono.INT64_MAX)%Z ->
     let ms := RangerActuatorState.get_time_stamp s in
     (- Chrono.MS_LIMIT <= ms <= Chrono.MS_LIMIT)%Z /\
     raised (RangerActuatorState.py_set_time_stamp ms s) = false /\
     Chrono.time_since_epoch
       (RangerActuatorState.time_stamp
          (final_state (RangerActuatorState.py_set_time_stamp ms s)))
     = (ms * 1000000)%Z) /\
  (forall s : RangerCommonSensorState.t,
     (Chrono.INT64_MIN
      <= Chrono.time_since_epoch (RangerCommonSensorState.time_stamp s)
      <= Chrono.INT64_MAX)%Z ->
     let ms := RangerCommonSensorState.get_time_stamp s in
     (- Chrono.MS_LIMIT <= ms <= Chrono.MS_LIMIT)%Z /\
     raised (RangerCommonSensorState.py_set_time_stamp ms s) = false /\
     Chrono.time_since_epoch
       (RangerCommonSensorState.time_stamp
          (final_state (RangerCommonSensorState.py_set_time_stamp ms s)))
     = (ms * 1000000)%Z).
Proof.
  repeat apply conj; intros s Hd ms;
    pose proof (ChronoFacts.duration_cast_bounded _ Hd) as Hb;
    (split; [exact Hb |]);
    unfold RangerCoreState.py_set_time_stamp, RangerActuatorState.py_set_time_stamp,
      RangerCommonSensorState.py_set_time_stamp;
    rewrite with_long_long_fits by (apply ms_limit_in_int64; exact Hb);
    (split; [reflexivity |]); cbn [final_state];
    apply (ChronoOrder.stored_in_range _ Hb).
Qed.

Lemma time_stamp_read_range_witness :
  let s := RangerCoreState.mk (M := int_messages)
             (Chrono.mk_time_point (-9223372036854775808)) 0%Z 0%Z 0%Z 0%Z 0%Z 0%Z in
  (Chrono.INT64_MIN <= Chrono.time_since_epoch (RangerCoreState.time_stamp s)
   <= Chrono.INT64_MAX)%Z /\
  (- Chrono.MS_LIMIT <= RangerCoreState.get_time_stamp s <= Chrono.MS_LIMIT)%Z.
Proof.
  cbn zeta.
  assert (Chrono.INT64_MIN <= -9223372036854775808 <= Chrono.INT64_MAX)%Z as H
    by (unfold Chrono.INT64_MIN, Chrono.INT64_MAX; lia).
  split; [exact H |].
  exact (proj1 (proj1 (time_stamp_read_range (M := int_messages))
                  (RangerCoreState.mk (M := int_messages)
                     (Chrono.mk_time_point (-9223372036854775808))
                     0%Z 0%Z 0%Z 0%Z 0%Z 0%Z) H)).
Defined.

(** ** Calls of the RangerRobot methods *)

Section DispatchFacts.
Context {M : AgilexMessages}.

Lemma kw_lookup_Some_elem name v (kwargs : list (string * PyObject)) :
  kw_lookup name kwargs = Some v -> (name, v) ∈ kwargs.
Proof.
  induction kwargs as [| [k x] rest IH]; cbn; [discriminate |].
  destruct (decide (k = name)) as [-> | Hne]; intros H.
  - injection H as ->. apply list_elem_of_here.
  - apply list_elem_of_further, IH, H.
Qed.

Lemma kw_lookup_None name (kwargs : list (string * PyObject)) :
  kw_lookup name kwargs = None <-> name ∉ kwargs.*1.
Proof.
  induction kwargs as [| [k x] rest IH]; cbn.
  - split; [intros _; apply not_elem_of_nil | reflexivity].
  - rewrite not_elem_of_cons. destruct (decide (k = name)) as [-> | Hne].
    + split; [discriminate | intros [H _]; congruence].
    + rewrite IH. split; [intros H; split; [congruence | exact H] | tauto].
Qed.

(** With distinct keys, a keyword argument is found whatever its place. *)
Lemma kw_lookup_elem name v (kwargs : list (string * PyObject)) :
  NoDup kwargs.*1 -> (name, v) ∈ kwargs -> kw_lookup name kwargs = Some v.
Proof.
  induction kwargs as [| [k x] rest IH]; cbn; intros Hnd Hin.
  - apply elem_of_nil in Hin. destruct Hin.
  - apply NoDup_cons in Hnd as [Hk Hnd].
    apply elem_of_cons in Hin as [Heq | Hin].
    + injection Heq as -> ->. rewrite decide_True by reflexivity. reflexivity.
    + destruct (decide (k = name)) as [-> | Hne]; [| apply IH; assumption].
      exfalso. apply Hk. apply (list_elem_of_fmap_2 fst) in Hin. exact Hin.
Qed.

Lemma elem_of_kw_remove name k v (kwargs : list (string * PyObject)) :
  (k, v) ∈ kw_remove name kwargs <-> (k, v) ∈ kwargs /\ k <> name.
Proof.
  induction kwargs as [| [k' x] rest IH]; cbn.
  - rewrite elem_of_nil. tauto.
  - destruct (decide (k' = name)) as [-> | Hne].
    + rewrite IH, elem_of_cons. split; [tauto |].
      intros [[Heq | Hin] Hk]; [injection Heq as -> ->; congruence | tauto].
    + rewrite !elem_of_cons, IH. split; [| tauto].
      intros [Heq | Hin]; [| tauto]. injection Heq as -> ->. tauto.
Qed.

Lemma kw_remove_keys name k (kwargs : list (string * PyObject)) :
  k ∈ (kw_remove name kwargs).*1 -> k ∈ kwargs.*1.
Proof.
  intros H. apply list_elem_of_fmap in H as [[k' v] [-> Hin]].
  apply elem_of_kw_remove in Hin as [Hin _].
  apply (list_elem_of_fmap_2 fst) in Hin. exact Hin.
Qed.

Lemma kw_remove_NoDup name (kwargs : list (string * PyObject)) :
  NoDup kwargs.*1 -> NoDup (kw_remove name kwargs).*1.
Proof.
  induction kwargs as [| [k x] rest IH]; cbn; intros Hnd; [exact Hnd |].
  apply NoDup_cons in Hnd as [Hk Hnd].
  destruct (decide (k = name)); [apply IH, Hnd |].
  cbn. apply NoDup_cons. split; [| apply IH, Hnd].
  intros Hin. apply Hk, (kw_remove_keys name), Hin.
Qed.

Lemma kw_lookup_remove_ne name k (kwargs : list (string * PyObject)) :
  k <> name -> kw_lookup k (kw_remove name kwargs) = kw_lookup k kwargs.
Proof.
  intros Hne. induction kwargs as [| [k' x] rest IH]; cbn; [reflexivity |].
  destruct (decide (k' = name)) as [-> | Hne'].
  - rewrite IH. rewrite decide_False by congruence. reflexivity.
  - cbn. rewrite IH. reflexivity.
Qed.

(** A loaded vector has one entry per parameter and starts with the
    positional arguments. *)
Lemma load_args_shape (spec : list arg_record) : forall args kwargs v,
  load_args spec args kwargs = Some v ->
  length v = length spec /\ take (length args) v = args.
Proof.
  induction spec as [| a spec IH]; intros args kwargs v H; cbn in H.
  - destruct args, kwargs; try discriminate. injection H as <-. split; reflexivity.
  - destruct args as [| x args].
    + destruct (kw_lookup (arg_name a) kwargs) as [x |].
      * destruct (load_args spec [] (kw_remove (arg_name a) kwargs)) as [v' |] eqn:E;
          [| discriminate].
        injection H as <-. destruct (IH _ _ _ E) as [E1 _]. cbn. split; [lia | reflexivity].
      * destruct (arg_default a) as [d |]; [| discriminate].
        destruct (load_args spec [] kwargs) as [v' |] eqn:E; [| discriminate].
        injection H as <-. destruct (IH _ _ _ E) as [E1 _]. cbn. split; [lia | reflexivity].
    + destruct (kw_lookup (arg_name a) kwargs); [discriminate |].
      destruct (load_args spec args kwargs) as [v' |] eqn:E; [| discriminate].
      injection H as <-. destruct (IH _ _ _ E) as [E1 E2]. cbn.
      split; [lia | rewrite E2; reflexivity].
Qed.

(** All parameters by keyword: the vector holds the values in the order of
    the table, whatever the order of the keywords. *)
Lemma load_args_keywords (spec : list arg_record) : forall vals kwargs,
  NoDup (arg_name <$> spec) -> length vals = length spec ->
  NoDup kwargs.*1 ->
  (forall k v, (k, v) ∈ kwargs <-> (k, v) ∈ zip (arg_name <$> spec) vals) ->
  load_args spec [] kwargs = Some vals.
Proof.
  induction spec as [| a spec IH]; intros vals kwargs Hnames Hlen Hnd Hkw.
  - destruct vals; [| discriminate]. destruct kwargs as [| [k v] rest]; [reflexivity |].
    exfalso. apply (elem_of_nil (k, v)). apply Hkw, list_elem_of_here.
  - destruct vals as [| x vals]; [discriminate |]. cbn in Hnames, Hlen, Hkw |- *.
    apply NoDup_cons in Hnames as [Ha Hnames].
    rewrite (kw_lookup_elem (arg_name a) x kwargs Hnd)
      by (apply Hkw, list_elem_of_here).
    rewrite (IH vals (kw_remove (arg_name a) kwargs)); [reflexivity | exact Hnames | lia
      | apply kw_remove_NoDup, Hnd |].
    intros k v. rewrite elem_of_kw_remove, Hkw, elem_of_cons. split.
    + intros [[Heq | Hin] Hk]; [injection Heq as -> ->; congruence | exact Hin].
    + intros Hin. split; [right; exact Hin |]. intros ->. apply Ha.
      apply (list_elem_of_fmap_2 fst) in Hin. rewrite fst_zip in Hin
        by (rewrite length_fmap; lia).
      exact Hin.
Qed.

(** A keyword that names no parameter makes the call fail. *)
Lemma load_args_unknown_keyword (spec : list arg_record) : forall args kwargs k,
  k ∉ arg_name <$> spec -> is_Some (kw_lookup k kwargs) ->
  load_args spec args kwargs = None.
Proof.
  induction spec as [| a spec IH]; intros args kwargs k Hk Hsome; cbn.
  - destruct args; [| reflexivity]. destruct kwargs; [| reflexivity].
    destruct Hsome as [v Hv]. discriminate.
  - cbn in Hk. apply not_elem_of_cons in Hk as [Hne Hk].
    destruct args as [| x args].
    + destruct (kw_lookup (arg_name a) kwargs) as [x |].
      * rewrite (IH [] _ k Hk); [reflexivity |]. rewrite kw_lookup_remove_ne; assumption.
      * destruct (arg_default a); [| reflexivity].
        rewrite (IH [] _ k Hk Hsome). reflexivity.
    + destruct (kw_lookup (arg_name a) kwargs); [reflexivity |].
      rewrite (IH args _ k Hk Hsome). reflexivity.
Qed.

(** A parameter given by position and again by keyword makes it fail. *)
Lemma load_args_given_twice (spec : list arg_record) : forall args kwargs i a,
  spec !! i = Some a -> i < length args -> is_Some (kw_lookup (arg_name a) kwargs) ->
  load_args spec args kwargs = None.
Proof.
  induction spec as [| a' spec IH]; intros args kwargs i a Hi Hlt Hsome;
    [discriminate |].
  destruct args as [| x args]; [cbn in Hlt; lia |]. cbn.
  destruct i as [| i].
  - injection Hi as ->. destruct Hsome as [v ->]. reflexivity.
  - destruct (kw_lookup (arg_name a') kwargs); [reflexivity |].
    rewrite (IH args kwargs i a Hi ltac:(cbn in Hlt; lia) Hsome). reflexivity.
Qed.

End DispatchFacts.

Section TableFacts.
Context {M : AgilexMessages}.

Lemma arg_tables_distinct_names name spec :
  (name, spec) ∈ RangerRobot_arg_tables -> NoDup (arg_name <$> spec).
Proof.
  unfold RangerRobot_arg_tables. intros H.
  repeat (apply elem_of_cons in H as [H | H];
          [injection H as -> ->; apply (bool_decide_unpack _); reflexivity |]).
  apply elem_of_nil in H. destruct H.
Qed.

End TableFacts.

(** X9: called with positional arguments only, the constructor and
    [request_version] accept at most one argument, [connect] and
    [set_motion_mode] exactly one, [set_motion_command] two or three and
    [set_light_command] exactly four; any other number is refused. *)
Theorem RangerRobot_positional_arity `{M : AgilexMessages} (args : list PyObject) :
  (is_Some (load_args RangerRobot_init_args args []) <-> length args <= 1) /\
  (is_Some (load_args connect_args args []) <-> length args = 1) /\
  (is_Some (load_args request_version_args args []) <-> length args <= 1) /\
  (is_Some (load_args set_motion_mode_args args []) <-> length args = 1) /\
  (is_Some (load_args set_motion_command_args args []) <-> 2 <= length args <= 3) /\
  (is_Some (load_args set_light_command_args args []) <-> length args = 4).
Proof.
  destruct args as [| a1 [| a2 [| a3 [| a4 [| a5 rest]]]]]; cbn;
    repeat match goal with |- _ /\ _ => split end;
    (split; [intros [v Hv]; first [discriminate | lia]
            | intros H; first [lia | eexists; reflexivity]]).
Qed.

(** X10: whenever a call of a bound method is accepted, the C++ function
    receives a vector with exactly one entry per declared parameter, and the
    vector starts with the positional arguments of the call, unchanged and
    in order. *)
Theorem bound_call_vector `{M : AgilexMessages} {R : Type}
    (spec : list arg_record) (impl : list PyObject -> R)
    (args : list PyObject) (kwargs : list (string * PyObject)) (r : R) :
  call spec impl args kwargs = Some r ->
  exists v, r = impl v /\ length v = length spec /\ take (length args) v = args.
Proof.
  unfold call. intros H.
  destruct (load_args spec args kwargs) as [v |] eqn:E; [| discriminate].
  injection H as <-. exists v. split; [reflexivity |].
  exact (load_args_shape spec args kwargs v E).
Qed.

Lemma bound_call_vector_witness :
  let args := [PyFloat (M := int_messages) 1; PyFloat 0.2] in
  call set_motion_command_args (fun v => v) args [("angular_vel", PyFloat 0.5)]
    = Some (args ++ [PyFloat 0.5]) /\
  exists v, args ++ [PyFloat 0.5] = v /\ length v = 3 /\ take 2 v = args.
Proof.
  cbn zeta.
  assert (call set_motion_command_args (fun v => v)
            [PyFloat (M := int_messages) 1; PyFloat 0.2]
            [("angular_vel", PyFloat 0.5)]
          = Some ([PyFloat (M := int_messages) 1; PyFloat 0.2] ++ [PyFloat 0.5])) as H
    by reflexivity.
  split; [exact H |].
  exact (bound_call_vector set_motion_command_args (fun v => v) _ _ _ H).
Defined.

(** X11: every RangerRobot method bound with named arguments can be called
    with all its parameters given by keyword, in any order, and the C++
    function then receives the same vector as for the positional call. *)
Theorem RangerRobot_keywords_any_order `{M : AgilexMessages}
    (name : string) (spec : list arg_record) (vals : list PyObject)
    (kwargs : list (string * PyObject)) :
  (name, spec) ∈ RangerRobot_arg_tables ->
  length vals = length spec ->
  kwargs ≡ₚ zip (arg_name <$> spec) vals ->
  load_args spec [] kwargs = Some vals /\ load_args spec vals [] = Some vals.
Proof.
  intros Hin Hlen Hperm. split; [| apply load_args_positional; exact Hlen].
  pose proof (arg_tables_distinct_names name spec Hin) as Hnames.
  apply load_args_keywords; [exact Hnames | exact Hlen | |].
  - rewrite Hperm, fst_zip by (rewrite length_fmap; lia). exact Hnames.
  - intros k v. rewrite Hperm. reflexivity.
Qed.

Lemma RangerRobot_keywords_any_order_witness :
  let vals := [PyInt (M := int_messages) 1; PyInt 100; PyInt 0; PyInt 50] in
  let kwargs := [("r_value", PyInt (M := int_messages) 50); ("f_mode", PyInt 1);
                 ("r_mode", PyInt 0); ("f_value", PyInt 100)] in
  (("set_light_command", set_light_command_args (M := int_messages))
     ∈ RangerRobot_arg_tables /\
   length vals = length (set_light_command_args (M := int_messages)) /\
   kwargs ≡ₚ zip (arg_name <$> set_light_command_args (M := int_messages)) vals) /\
  load_args set_light_command_args [] kwargs = Some vals.
Proof.
  cbn zeta.
  assert (("set_light_command", set_light_command_args (M := int_messages))
            ∈ RangerRobot_arg_tables) as H1
    by (unfold RangerRobot_arg_tables; do 5 apply list_elem_of_further;
        apply list_elem_of_here).
  assert ([("r_value", PyInt (M := int_messages) 50); ("f_mode", PyInt 1);
           ("r_mode", PyInt 0); ("f_value", PyInt 100)]
          ≡ₚ zip (arg_name <$> set_light_command_args (M := int_messages))
               [PyInt (M := int_messages) 1; PyInt 100; PyInt 0; PyInt 50]) as H3.
  { cbn. etransitivity; [apply Permutation_cons_append |]. cbn.
    apply perm_skip. apply perm_swap. }
  split; [split; [exact H1 | split; [reflexivity | exact H3]] |].
  exact (proj1 (RangerRobot_keywords_any_order "set_light_command"
                  set_light_command_args
                  [PyInt (M := int_messages) 1; PyInt 100; PyInt 0; PyInt 50]
                  _ H1 eq_refl H3)).
Defined.

(** X12: a call is refused when it passes a keyword that names no
    parameter of the method, and when it passes a parameter both by
    position and by keyword. *)
Theorem bound_call_refusals `{M : AgilexMessages}
    (spec : list arg_record) (args : list PyObject)
    (kwargs : list (string * PyObject)) :
  (forall k, k ∉ arg_name <$> spec -> is_Some (kw_lookup k kwargs) ->
             load_args spec args kwargs = None) /\
  (forall i a, spec !! i = Some a -> i < length args ->
               is_Some (kw_lookup (arg_name a) kwargs) ->
               load_args spec args kwargs = None).
Proof.
  split.
  - intros k. apply load_args_unknown_keyword.
  - intros i a. apply load_args_given_twice.
Qed.

Lemma bound_call_refusals_witness :
  let args := [PyFloat (M := int_messages) 1; PyFloat 0.2] in
  (("speed" ∉ arg_name <$> set_motion_command_args (M := int_messages)) /\
   is_Some (kw_lookup "speed" [("speed", PyFloat (M := int_messages) 2)])) /\
  load_args set_motion_command_args args [("speed", PyFloat 2)] = None.
Proof.
  cbn zeta.
  assert ("speed" ∉ arg_name <$> set_motion_command_args (M := int_messages)) as H1.
  { cbn. rewrite !not_elem_of_cons. repeat split; try discriminate.
    apply not_elem_of_nil. }
  assert (is_Some (kw_lookup "speed" [("speed", PyFloat (M := int_messages) 2)])) as H2
    by (eexists; reflexivity).
  split; [split; [exact H1 | exact H2] |].
  exact (proj1 (bound_call_refusals set_motion_command_args _ _) "speed" H1 H2).
Defined.
